(** * TNetXNGFile: vectored-read planning, dispatch and join; asynchronous open

    A shallow embedding of [net/netxng/src/TNetXNGFile.cxx].  C++ integers are
    modelled as [Z] with their conversions written out, the XRootD session
    ([XrdCl::File]) is an oracle passed to the operations, and the completion
    callbacks that the session runs on its own threads are the steps of a
    transition relation. *)

From Stdlib Require Import ZArith Lia.
From stdpp Require Import base option list relations strings gmap.

Local Open Scope Z_scope.

(** ** Machine integers *)

Module Cxx.

(** Conversion to [Int_t] (32-bit, two's complement). *)
Definition to_Int_t (z : Z) : Z := (z + 2 ^ 31) mod 2 ^ 32 - 2 ^ 31.

(** Conversion to [uint32_t] and [uint64_t]. *)
Definition to_uint32 (z : Z) : Z := z mod 2 ^ 32.
Definition to_uint64 (z : Z) : Z := z mod 2 ^ 64.

Definition Int_t_max : Z := 2 ^ 31 - 1.

End Cxx.

Import Cxx.

(** ** Chunks and chunk lists *)

(** [XrdCl::ChunkInfo]: a [uint64_t] offset, a [uint32_t] length and the
    destination pointer (an address). *)
Record ChunkInfo : Type := mkChunkInfo {
  chunk_offset : Z;
  chunk_length : Z;
  chunk_buffer : Z
}.

Global Instance ChunkInfo_eq_dec : EqDecision ChunkInfo.
Proof. solve_decision. Defined.

(** The constructor call [ChunkInfo(offset, len, buffer)]: the arguments are
    converted to the parameter types [uint64_t] and [uint32_t]. *)
Definition ChunkInfo_new (off len buff : Z) : ChunkInfo :=
  mkChunkInfo (to_uint64 off) (to_uint32 len) buff.

Abbreviation ChunkList := (list ChunkInfo).

(** ** ReadBuffers: building the chunk lists *)

Section Planner.

(** The vector read limits of the file and the destination pointer. *)
Variable fReadvIorMax : Z.
Variable fReadvIovMax : Z.
Variable buffer : Z.

(** The inner loop [for (j = 0; j < nsplit; ++j)]: one chunk of
    [fReadvIorMax] bytes per round.  The local [offset] is an [Int_t]. *)
Definition max_size_chunks (position : Z) (nsplit : nat) : ChunkList :=
  (fun j : nat =>
     ChunkInfo_new (to_Int_t (position + Z.of_nat j * fReadvIorMax))
                   fReadvIorMax buffer) <$> seq 0 nsplit.

(** The chunks pushed for the descriptor [(position, length)].  [None] is
    the integer division by zero that C++ leaves undefined. *)
Definition descriptor_chunks (position length : Z) : option ChunkList :=
  if fReadvIorMax <? length then
    if fReadvIorMax =? 0 then None
    else
      let nsplit := Z.to_nat (Z.quot length fReadvIorMax) in
      let rem := Z.rem length fReadvIorMax in
      Some (max_size_chunks position nsplit ++
            [ChunkInfo_new
               (to_Int_t (position + Z.of_nat nsplit * fReadvIorMax))
               rem buffer])
  else
    Some [ChunkInfo_new (to_Int_t position) length buffer].

(** The test on [chunks.size()] at the end of each round of the outer loop.
    [None] is the iterator [chunks.begin() + fReadvIovMax] taken with a
    negative limit.  The cast [(Int_t) chunks.size()] is the identity on
    the sizes a request can reach. *)
Definition close_chunk_list (chunkLists : list ChunkList) (chunks : ChunkList)
  : option (list ChunkList * ChunkList) :=
  let size := Z.of_nat (length chunks) in
  if size =? fReadvIovMax then Some (chunkLists ++ [chunks], [])
  else if fReadvIovMax <? size then
    if fReadvIovMax <? 0 then None
    else
      let n := Z.to_nat fReadvIovMax in
      Some (chunkLists ++ [take n chunks], drop n chunks)
  else Some (chunkLists, chunks).

(** The outer loop over the [nbuffs] descriptors [(position[i], length[i])]. *)
Fixpoint build_chunk_lists (descs : list (Z * Z))
    (chunkLists : list ChunkList) (chunks : ChunkList)
  : option (list ChunkList * ChunkList) :=
  match descs with
  | [] => Some (chunkLists, chunks)
  | (position, length) :: rest =>
      cs ← descriptor_chunks position length;
      '(chunkLists', chunks') ← close_chunk_list chunkLists (chunks ++ cs);
      build_chunk_lists rest chunkLists' chunks'
  end.

(** The loop followed by "push back the last chunk list". *)
Definition plan_chunk_lists (descs : list (Z * Z)) : option (list ChunkList) :=
  '(chunkLists, chunks) ← build_chunk_lists descs [] [];
  Some (chunkLists ++ [chunks]).

End Planner.

(** The limits [GetVectorReadLimits] installs before it asks the server. *)
Definition default_ior_max : Z := 2097136.
Definition default_iov_max : Z := 1024.


(** ** The XRootD session as seen from the file *)

(** [XrdCl::XRootDStatus]: what the code reads of it is [IsOK()]; the code
    stands for the text [ToStr()] prints. *)
Record XRootDStatus : Type := mkStatus {
  IsOK : bool;
  status_code : Z
}.

Global Instance XRootDStatus_eq_dec : EqDecision XRootDStatus.
Proof. solve_decision. Defined.

(** [XrdCl::OpenFlags::Flags], as far as [ParseOpenMode] produces them. *)
Inductive OpenFlags : Type :=
  | OF_None | OF_Delete | OF_New | OF_Update | OF_Read.

Global Instance OpenFlags_eq_dec : EqDecision OpenFlags.
Proof. solve_decision. Defined.

(** Modelled from the spec: the enumeration [TFile::EAsyncOpenStatus] is
    declared in [TFile.h], which is not among the sources.  The source names
    [kAOSInProgress], [kAOSSuccess] and [kAOSFailure]; [kAOSNotAsync] is the
    "NotStarted" of the specification. *)
Inductive EAsyncOpenStatus : Type :=
  | kAOSNotAsync | kAOSFailure | kAOSInProgress | kAOSSuccess.

Global Instance EAsyncOpenStatus_eq_dec : EqDecision EAsyncOpenStatus.
Proof. solve_decision. Defined.

Definition terminal (s : EAsyncOpenStatus) : bool :=
  match s with
  | kAOSSuccess | kAOSFailure => true
  | kAOSNotAsync | kAOSInProgress => false
  end.

(** The answers of the remote session to the calls of one operation. *)
Record Session : Type := mkSession {
  (** status returned by the [n]-th [VectorRead] submission of a call *)
  VectorRead : nat -> ChunkList -> XRootDStatus;
  (** status the session hands to the handler of the [n]-th submission *)
  readv_response : nat -> XRootDStatus;
  (** status returned by the synchronous [Open(url, mode)] *)
  Open : OpenFlags -> XRootDStatus;
  (** [Query(Config, "readv_ior_max readv_iov_max")]: the tokens of the
      reply after [Atoi], or [None] when the query fails *)
  QueryConfig : option (list Z);
  (** whether the global [gPerfStats] is set *)
  gPerfStats : bool
}.

(** ** The file object *)

Record TNetXNGFile : Type := mkFile {
  fZombie : bool;                       (* TObject::IsZombie() *)
  fIsOpen : bool;                       (* fFile->IsOpen() *)
  fMode : OpenFlags;
  fAsyncOpenStatus : EAsyncOpenStatus;
  fInitSignals : nat;                   (* Signal() calls on fInitCondVar *)
  fInitDone : bool;
  fReadvIorMax : Z;
  fReadvIovMax : Z;
  fArchiveOffset : Z;
  fOffset : Z;
  fBytesRead : Z;
  fReadCalls : Z
}.

Definition IsOpen (f : TNetXNGFile) : bool := fIsOpen f.

Definition IsUseable (f : TNetXNGFile) : bool :=
  if fZombie f then false
  else if negb (IsOpen f) then false
  else true.

(** *** Asynchronous open *)

Definition SetAsyncOpenStatus (f : TNetXNGFile) (status : EAsyncOpenStatus)
  : TNetXNGFile :=
  mkFile (fZombie f) (fIsOpen f) (fMode f) status (S (fInitSignals f))
         (fInitDone f) (fReadvIorMax f) (fReadvIovMax f) (fArchiveOffset f)
         (fOffset f) (fBytesRead f) (fReadCalls f).

Module TAsyncOpenHandler.

(** The constructor of the handler. *)
Definition new (f : TNetXNGFile) : TNetXNGFile :=
  SetAsyncOpenStatus f kAOSInProgress.

Definition HandleResponse (f : TNetXNGFile) (status : XRootDStatus)
  : TNetXNGFile :=
  if IsOK status then SetAsyncOpenStatus f kAOSSuccess
  else SetAsyncOpenStatus f kAOSFailure.

End TAsyncOpenHandler.

(** The guard before [fInitCondVar->Wait()] in [Init]: [Some true] when the
    calling thread goes to wait, [Some false] when it goes on at once, and
    [None] when [fInitDone] makes [Init] return. *)
Definition Init_waits (f : TNetXNGFile) : option bool :=
  if fInitDone f then None
  else Some (negb (IsOpen f) && bool_decide (fAsyncOpenStatus f = kAOSInProgress)).

(** *** Vector read limits *)

Definition set_limits (f : TNetXNGFile) (ior iov : Z) : TNetXNGFile :=
  mkFile (fZombie f) (fIsOpen f) (fMode f) (fAsyncOpenStatus f)
         (fInitSignals f) (fInitDone f) ior iov (fArchiveOffset f)
         (fOffset f) (fBytesRead f) (fReadCalls f).

(** One round of the loop over the tokens of the reply. *)
Definition read_limit_token (lim : Z * Z) (token : Z) : Z * Z :=
  if lim.1 =? 0 then (token, lim.2)
  else if lim.2 =? 0 then (lim.1, token)
  else lim.

Definition GetVectorReadLimits (s : Session) (f : TNetXNGFile)
  : bool * TNetXNGFile :=
  let f1 := set_limits f default_ior_max default_iov_max in
  if negb (IsUseable f1) then (false, f1)
  else match QueryConfig s with
       | None => (false, f1)
       | Some tokens =>
           let lim := fold_left read_limit_token tokens (0, 0) in
           (true, set_limits f1 lim.1 lim.2)
       end.

(** *** ReOpen *)

Definition toupper (c : Ascii.ascii) : Ascii.ascii :=
  let n := Ascii.nat_of_ascii c in
  if ((97 <=? n) && (n <=? 122))%nat then Ascii.ascii_of_nat (n - 32) else c.

Fixpoint ToUpper (s : string) : string :=
  match s with
  | EmptyString => EmptyString
  | String c rest => String (toupper c) (ToUpper rest)
  end.

Definition ParseOpenMode (modestr : string) : OpenFlags :=
  let mod' := ToUpper modestr in
  if bool_decide (mod' = "NEW"%string) || bool_decide (mod' = "CREATE"%string)
  then OF_New
  else if bool_decide (mod' = "RECREATE"%string) then OF_Delete
  else if bool_decide (mod' = "UPDATE"%string) then OF_Update
  else if bool_decide (mod' = "READ"%string) then OF_Read
  else OF_None.

Definition set_session (f : TNetXNGFile) (open : bool) (mode : OpenFlags)
  : TNetXNGFile :=
  mkFile (fZombie f) open mode (fAsyncOpenStatus f) (fInitSignals f)
         (fInitDone f) (fReadvIorMax f) (fReadvIovMax f) (fArchiveOffset f)
         (fOffset f) (fBytesRead f) (fReadCalls f).

(** [ReOpen] returns its [Int_t] result and the file as it leaves it. *)
Definition ReOpen (s : Session) (f : TNetXNGFile) (modestr : string)
  : Z * TNetXNGFile :=
  let mode := ParseOpenMode modestr in
  if bool_decide (mode ≠ OF_Read) && bool_decide (mode ≠ OF_Update) then (1, f)
  else if bool_decide (mode = fMode f)
          || (bool_decide (mode = OF_Update) && bool_decide (fMode f = OF_New))
  then (1, f)
  else
    (* fFile->Close(); fMode = mode; *)
    let f1 := set_session f false mode in
    let st := Open s (fMode f1) in
    if negb (IsOK st) then (1, f1)
    else (0, set_session f1 true mode).

(** *** Init against the response to an asynchronous open *)

(** Where the thread that called [Init] stands. *)
Inductive init_pc : Type :=
  | InitGuard                   (* at the test before the wait *)
  | InitBeforeWait              (* the test held, [Wait] not entered yet *)
  | InitBlocked                 (* inside [fInitCondVar->Wait()] *)
  | InitGoesOn (waited : bool)  (* past the wait, on to [TFile::Init] *)
  | InitReturned.               (* [fInitDone]: returned at once *)

(** The test of [fInitDone] and the guard of the wait. *)
Definition Init_test (f : TNetXNGFile) : init_pc :=
  match Init_waits f with
  | None => InitReturned
  | Some true => InitBeforeWait
  | Some false => InitGoesOn false
  end.

(** Modelled from the spec: [XrdSysCondVar] is declared in the headers of the
    XRootD client, which are not among the sources.  It is the
    "condition-variable blocking" of the specification, the one with a
    "check-then-wait race": [Wait] blocks the calling thread until a later
    [Signal], and a [Signal] while no thread is blocked wakes nobody and
    leaves nothing behind. *)
Definition XrdSysCondVar_Signal (pc : init_pc) : init_pc :=
  match pc with
  | InitBlocked => InitGoesOn true
  | _ => pc
  end.

(** The thread in [Init], the file, and the response to the open the
    session has still to deliver. *)
Record init_state : Type := mkInit {
  init_file : TNetXNGFile;
  init_at : init_pc;
  init_pending : option XRootDStatus
}.

(** Either the calling thread makes its next move in [Init], or a thread
    of the session delivers the response: the session is open or not from
    then on ([open], as the session has it), and the handler stores the
    status and signals. *)
Inductive init_step : init_state -> init_state -> Prop :=
  | init_test f pending :
      init_step (mkInit f InitGuard pending) (mkInit f (Init_test f) pending)
  | init_enter_wait f pending :
      init_step (mkInit f InitBeforeWait pending)
                (mkInit f InitBlocked pending)
  | init_open_response f pc status open :
      init_step (mkInit f pc (Some status))
                (mkInit (TAsyncOpenHandler.HandleResponse
                           (set_session f open (fMode f)) status)
                        (XrdSysCondVar_Signal pc) None).

(** The invariant of a call of [Init] on the file [f] whose open is in
    progress: as long as the response [status] is to come the file is as it
    was and the thread has not gone past the wait; afterwards the status of
    the open is terminal. *)
Definition init_inv (f : TNetXNGFile) (status : XRootDStatus)
    (s : init_state) : Prop :=
  match init_pending s with
  | Some status' =>
      status' = status /\ init_file s = f
      /\ forall waited, init_at s <> InitGoesOn waited
  | None => terminal (fAsyncOpenStatus (init_file s)) = true
  end.

(** ** ReadBuffers: dispatch and join *)

(** Modelled from the spec: [TSemaphore] is declared in [TSemaphore.h], which
    is not among the sources.  It is the "counting join primitive" of the
    specification: [Post] adds one signal, [Wait] takes one signal and blocks
    ([None]) while there is none. *)
Definition TSemaphore_Post (count : nat) : nat := S count.

Definition TSemaphore_Wait (count : nat) : option nat :=
  match count with
  | O => None
  | S count' => Some count'
  end.

Module TAsyncReadvHandler.

(** [HandleResponse] of the handler built with index [fStatusIndex], on the
    status vector and the semaphore it shares with the call.  [None] is the
    exception [at] throws when the index is out of range. *)
Definition HandleResponse (fStatusIndex : nat) (status : XRootDStatus)
    (fStatuses : list (option XRootDStatus)) (fSemaphore : nat)
  : option (list (option XRootDStatus) * nat) :=
  if decide (fStatusIndex < length fStatuses)%nat
  then Some (<[fStatusIndex := Some status]> fStatuses,
           TSemaphore_Post fSemaphore)
  else None.

End TAsyncReadvHandler.

(** The loop of [VectorRead] submissions, from index [idx] on: how many
    submissions the session took, and the status that stopped the loop. *)
Fixpoint dispatch (s : Session) (idx : nat) (chunkLists : list ChunkList)
  : nat * option XRootDStatus :=
  match chunkLists with
  | [] => (idx, None)
  | chunks :: rest =>
      let status := VectorRead s idx chunks in
      if negb (IsOK status) then (idx, Some status)
      else dispatch s (S idx) rest
  end.

(** The state of a call between its last submission and its error scan:
    the status vector (null pointers at first), the count of the semaphore,
    the responses the session has still to deliver, each with the index of its
    handler, and the rounds the wait loop has still to make. *)
Record join_state : Type := mkJoin {
  join_statuses : list (option XRootDStatus);
  join_semaphore : nat;
  join_in_flight : list (nat * XRootDStatus);
  join_waits : nat
}.

(** Either a worker thread of the session runs one handler, whichever
    response it has ready, or the calling thread gets through one
    [semaphore->Wait()]. *)
Inductive join_step : join_state -> join_state -> Prop :=
  | step_response statuses sem before idx status after waits statuses' sem' :
      TAsyncReadvHandler.HandleResponse idx status statuses sem
        = Some (statuses', sem') ->
      join_step (mkJoin statuses sem (before ++ (idx, status) :: after) waits)
                (mkJoin statuses' sem' (before ++ after) waits)
  | step_wait statuses sem in_flight waits sem' :
      TSemaphore_Wait sem = Some sem' ->
      join_step (mkJoin statuses sem in_flight (S waits))
                (mkJoin statuses sem' in_flight waits).

(** The state after all [VectorRead] calls were taken, for the responses
    [resp] (the one at position [i] is for the submission of index [i]). *)
Definition join_init (resp : list XRootDStatus) : join_state :=
  mkJoin (replicate (length resp) None) 0 (imap pair resp) (length resp).

(** Handlers run in the order [arrival], the waits after them. *)
Fixpoint deliver (arrival : list (nat * XRootDStatus))
    (statuses : list (option XRootDStatus)) (sem : nat)
  : option (list (option XRootDStatus) * nat) :=
  match arrival with
  | [] => Some (statuses, sem)
  | (idx, status) :: rest =>
      '(statuses', sem') ←
         TAsyncReadvHandler.HandleResponse idx status statuses sem;
      deliver rest statuses' sem'
  end.

(** The scan "check for errors". *)
Inductive scan_result : Type :=
  | ScanOK (deleted : list nat)
      (* no failure; the slots deleted, in order *)
  | ScanFailed (idx : nat) (status : XRootDStatus) (deleted : list nat)
      (* the slot [Error] reports, and the slots deleted before it *)
  | ScanNull (idx : nat).
      (* a null pointer dereferenced at slot [idx] *)

(** The scan stops at the first status that is not OK, after [Error] has
    printed it; the slots before it have been deleted one by one.  What the
    failing branch does next is in [ReadBuffers]. *)
Fixpoint check_errors (statuses : list (option XRootDStatus)) (idx : nat)
    (deleted : list nat) : scan_result :=
  match statuses with
  | [] => ScanOK deleted
  | None :: _ => ScanNull idx
  | Some st :: rest =>
      if negb (IsOK st)
      then ScanFailed idx st deleted
      else check_errors rest (S idx) (deleted ++ [idx])
  end.

(** What a call of [ReadBuffers] did besides returning. *)
Record ReadBuffersTrace : Type := mkTrace {
  rb_submitted : list ChunkList;   (* the [VectorRead] calls, in order *)
  rb_in_flight : nat;              (* submissions the session took *)
  rb_waits : nat;                  (* [semaphore->Wait()] calls *)
  rb_error : option XRootDStatus;  (* the status [Error] printed *)
  rb_deleted : list nat;           (* status slots deleted *)
  rb_freed : bool                  (* [delete statuses; delete semaphore] *)
}.

Definition shift_positions (fArchiveOffset : Z) (descs : list (Z * Z))
  : list (Z * Z) :=
  if fArchiveOffset =? 0 then descs
  else (fun d : Z * Z => (d.1 + fArchiveOffset, d.2)) <$> descs.

Definition bump_read (f : TNetXNGFile) (totalBytes : Z) : TNetXNGFile :=
  mkFile (fZombie f) (fIsOpen f) (fMode f) (fAsyncOpenStatus f)
         (fInitSignals f) (fInitDone f) (fReadvIorMax f) (fReadvIovMax f)
         (fArchiveOffset f) (fOffset f) (fBytesRead f + totalBytes)
         (to_Int_t (fReadCalls f + 1)).

Definition set_offset (f : TNetXNGFile) (offset : Z) : TNetXNGFile :=
  mkFile (fZombie f) (fIsOpen f) (fMode f) (fAsyncOpenStatus f)
         (fInitSignals f) (fInitDone f) (fReadvIorMax f) (fReadvIovMax f)
         (fArchiveOffset f) offset (fBytesRead f) (fReadCalls f).

(** [ReadBuffers(buffer, position, length, nbuffs)] with the descriptors
    given as the list of the pairs [(position[i], length[i])].  The result is
    the [Bool_t] returned ([true] is [kTRUE], a failure), what the call did,
    and the file after it; [None] is undefined behaviour.  The branch for a
    response that is not OK is undefined: after [Error] has printed the
    status it deletes the status vector and the semaphore, and then reads
    the slots from the failing one on out of the deleted vector. *)
Definition ReadBuffers (s : Session) (f : TNetXNGFile) (buffer : Z)
    (descs : list (Z * Z)) : option (bool * ReadBuffersTrace * TNetXNGFile) :=
  if negb (IsUseable f) then Some (true, mkTrace [] 0 0 None [] false, f)
  else
    let descs := shift_positions (fArchiveOffset f) descs in
    let totalBytes := to_Int_t (foldr Z.add 0 descs.*2) in
    chunkLists ←
      plan_chunk_lists (fReadvIorMax f) (fReadvIovMax f) buffer descs;
    match dispatch s 0 chunkLists with
    | (n, Some status) =>
        Some (true,
              mkTrace (take (S n) chunkLists) n 0 (Some status) [] false, f)
    | (n, None) =>
        let statuses :=
          (fun i : nat => Some (readv_response s i)) <$> seq 0 n in
        match check_errors statuses 0 [] with
        | ScanNull _ => None
        | ScanFailed _ _ _ => None
        | ScanOK deleted =>
            let f1 := bump_read f totalBytes in
            f2 ← (if gPerfStats s
                  then match descs with
                       | [] => None
                       | d :: _ => Some (set_offset f1 d.1)
                       end
                  else Some f1);
            Some (false, mkTrace chunkLists n n None deleted true, f2)
        end
    end.

(** The operations of this file that can run on an open file object.
    [None] is undefined behaviour inside [ReadBuffers]. *)
Inductive file_op : Type :=
  | OpHandleOpenResponse (status : XRootDStatus)
  | OpReOpen (modestr : string)
  | OpGetVectorReadLimits
  | OpReadBuffers (buffer : Z) (descs : list (Z * Z)).

Definition run_op (s : Session) (op : file_op) (f : TNetXNGFile)
  : option TNetXNGFile :=
  match op with
  | OpHandleOpenResponse status =>
      Some (TAsyncOpenHandler.HandleResponse f status)
  | OpReOpen modestr => Some (ReOpen s f modestr).2
  | OpGetVectorReadLimits => Some (GetVectorReadLimits s f).2
  | OpReadBuffers buffer descs =>
      r ← ReadBuffers s f buffer descs; Some r.2
  end.

(** The chunks of all descriptors, in the order of the descriptors. *)
Definition all_chunks (fReadvIorMax buffer : Z) (descs : list (Z * Z))
  : option ChunkList :=
  @concat ChunkInfo <$> mapM (fun d : Z * Z => descriptor_chunks fReadvIorMax buffer d.1 d.2)
                  descs.

(** Batch [k] is the failure of lowest index among the responses [resp]. *)
Definition lowest_failure (resp : list XRootDStatus) (k : nat)
    (st : XRootDStatus) : Prop :=
  resp !! k = Some st
  /\ IsOK st = false
  /\ forall j st', (j < k)%nat -> resp !! j = Some st' -> IsOK st' = true.

(** The invariant of the join: the status vector keeps its size, the wait
    loop has as many rounds to go as there are signals posted or still to
    come, a response in flight is the one of its index, and the response of
    every index is either in its slot or still in flight. *)
Definition join_inv (resp : list XRootDStatus) (st : join_state) : Prop :=
  length (join_statuses st) = length resp
  /\ join_waits st = (join_semaphore st + length (join_in_flight st))%nat
  /\ (forall i s, (i, s) ∈ join_in_flight st -> resp !! i = Some s)
  /\ (forall i s, resp !! i = Some s ->
        join_statuses st !! i = Some (Some s)
        \/ exists s', (i, s') ∈ join_in_flight st).

(** Files and sessions to run the operations on. *)
Definition status_ok : XRootDStatus := mkStatus true 0.

(** A usable file with a chunk limit of 4 bytes and one chunk per list. *)
Definition small_file : TNetXNGFile :=
  mkFile false true OF_Read kAOSSuccess 1 true 4 1 0 0 0 0.

(** A usable file with the default limits. *)
Definition default_file : TNetXNGFile :=
  mkFile false true OF_Read kAOSSuccess 1 true default_ior_max default_iov_max
         0 0 0 0.

(** A file whose asynchronous open is in progress. *)
Definition opening_file : TNetXNGFile :=
  mkFile false false OF_Read kAOSInProgress 1 false 0 0 0 0 0 0.

(** Every call succeeds. *)
Definition good_session : Session :=
  mkSession (fun _ _ => status_ok) (fun _ => status_ok) (fun _ => status_ok)
            None false.

(** Every submission is taken; the responses of the submissions 1 and 2
    report failures. *)
Definition failing_session : Session :=
  mkSession (fun _ _ => status_ok)
            (fun i => match i with
                      | 0%nat => status_ok
                      | 1%nat => mkStatus false 3
                      | _ => mkStatus false 5
                      end)
            (fun _ => status_ok) None false.

(** The submission of index 1 is rejected. *)
Definition rejecting_session : Session :=
  mkSession (fun i _ => match i with
                        | 1%nat => mkStatus false 7
                        | _ => status_ok
                        end)
            (fun _ => status_ok) (fun _ => mkStatus false 9) None false.

(** [ceil (L / M)] for a positive [M]. *)
Definition ceil_div (L M : Z) : Z := (L + M - 1) / M.

(** ** Further operations of the file *)

(** Conversion to [Long64_t]. *)
Definition to_Long64_t (z : Z) : Z := (z + 2 ^ 63) mod 2 ^ 64 - 2 ^ 63.

(** The answers of the session to the calls of the single operations. *)
Record Remote : Type := mkRemote {
  (** status returned at once by [Open(url, mode, Access::None, handler)] *)
  OpenAsync : OpenFlags -> XRootDStatus;
  (** [Stat(force, info)]: the size in the answer, [None] when it fails *)
  Stat : bool -> option Z;
  (** [Read(offset, size, buffer, bytesRead)]: the status and [bytesRead] *)
  Read : Z -> Z -> Z -> XRootDStatus * Z;
  (** [Write(offset, size, buffer)] *)
  Write : Z -> Z -> Z -> XRootDStatus;
  (** [Close()] *)
  CloseSession : XRootDStatus
}.

(** The methods the class inherits from [TFile], which is not among the
    sources, taken as they come: the cache look-ups return their [Int_t]
    status and the file as they leave it. *)
Record TFileBase : Type := mkBase {
  ReadBufferViaCache : TNetXNGFile -> Z -> Z -> Z * TNetXNGFile;
  WriteBufferViaCache : TNetXNGFile -> Z -> Z -> Z * TNetXNGFile;
  TFileInit : bool -> TNetXNGFile -> TNetXNGFile;
  TFileClose : TNetXNGFile -> TNetXNGFile
}.

(** The write counter of the file and the counters of the class. *)
Record Counters : Type := mkCounters {
  fBytesWrite : Z;
  fgBytesRead : Z;
  fgReadCalls : Z;
  fgBytesWrite : Z
}.

Definition MakeZombie (f : TNetXNGFile) : TNetXNGFile :=
  mkFile true (fIsOpen f) (fMode f) (fAsyncOpenStatus f) (fInitSignals f)
         (fInitDone f) (fReadvIorMax f) (fReadvIovMax f) (fArchiveOffset f)
         (fOffset f) (fBytesRead f) (fReadCalls f).

(** [ReadBuffer(buffer, position, length)]: the [Bool_t] returned ([true] is
    [kTRUE]), the file and the counters after the call, and the [Read] the
    session was asked for, if any, as [(offset, size)]. *)
Definition ReadBuffer (base : TFileBase) (r : Remote) (f : TNetXNGFile)
    (c : Counters) (buffer position length : Z)
  : bool * TNetXNGFile * Counters * option (Z * Z) :=
  if negb (IsUseable f) then (true, f, c, None)
  else
    let '(status, f1) := ReadBufferViaCache base f buffer length in
    if negb (status =? 0) then
      if status =? 2 then (true, f1, c, None) else (false, f1, c, None)
    else
      let '(st, bytesRead) :=
        Read r (to_uint64 position) (to_uint32 length) buffer in
      let call := Some (to_uint64 position, to_uint32 length) in
      if negb (IsOK st) then (true, f1, c, call)
      else
        (false,
         mkFile (fZombie f1) (fIsOpen f1) (fMode f1) (fAsyncOpenStatus f1)
                (fInitSignals f1) (fInitDone f1) (fReadvIorMax f1)
                (fReadvIovMax f1) (fArchiveOffset f1) (fOffset f1 + length)
                (fBytesRead f1 + bytesRead) (to_Int_t (fReadCalls f1 + 1)),
         mkCounters (fBytesWrite c) (fgBytesRead c + bytesRead)
                    (to_Int_t (fgReadCalls c + 1)) (fgBytesWrite c),
         call).

(** [ReadBuffer(buffer, length)]: the read at the offset of the file. *)
Definition ReadBuffer_here (base : TFileBase) (r : Remote) (f : TNetXNGFile)
    (c : Counters) (buffer length : Z)
  : bool * TNetXNGFile * Counters * option (Z * Z) :=
  ReadBuffer base r f c buffer (fOffset f) length.

(** [WriteBuffer(buffer, length)], with the [Write] the session was asked
    for, if any, as [(offset, size)]. *)
Definition WriteBuffer (base : TFileBase) (r : Remote) (f : TNetXNGFile)
    (c : Counters) (buffer length : Z)
  : bool * TNetXNGFile * Counters * option (Z * Z) :=
  if negb (IsUseable f) then (true, f, c, None)
  else
    let '(status, f1) := WriteBufferViaCache base f buffer length in
    if negb (status =? 0) then
      if status =? 2 then (true, f1, c, None) else (false, f1, c, None)
    else
      let st := Write r (to_uint64 (fOffset f1)) (to_uint32 length) buffer in
      let call := Some (to_uint64 (fOffset f1), to_uint32 length) in
      if negb (IsOK st) then (true, f1, c, call)
      else
        (false,
         mkFile (fZombie f1) (fIsOpen f1) (fMode f1) (fAsyncOpenStatus f1)
                (fInitSignals f1) (fInitDone f1) (fReadvIorMax f1)
                (fReadvIovMax f1) (fArchiveOffset f1) (fOffset f1 + length)
                (fBytesRead f1) (fReadCalls f1),
         mkCounters (fBytesWrite c + length) (fgBytesRead c)
                    (fgReadCalls c) (fgBytesWrite c + length),
         call).

(** The calls [ReadBuffer(buffer, length)], one per length and one after the
    other: what they returned, what the session was asked for, and the file
    and the counters at the end. *)
Fixpoint ReadBuffer_each (base : TFileBase) (r : Remote) (buffer : Z)
    (lengths : list Z) (f : TNetXNGFile) (c : Counters)
  : list bool * list (option (Z * Z)) * TNetXNGFile * Counters :=
  match lengths with
  | [] => ([], [], f, c)
  | length :: rest =>
      let '(ret, f1, c1, call) := ReadBuffer_here base r f c buffer length in
      let '(rets, calls, f2, c2) := ReadBuffer_each base r buffer rest f1 c1 in
      (ret :: rets, call :: calls, f2, c2)
  end.

(** The same for [WriteBuffer(buffer, length)]. *)
Fixpoint WriteBuffer_each (base : TFileBase) (r : Remote) (buffer : Z)
    (lengths : list Z) (f : TNetXNGFile) (c : Counters)
  : list bool * list (option (Z * Z)) * TNetXNGFile * Counters :=
  match lengths with
  | [] => ([], [], f, c)
  | length :: rest =>
      let '(ret, f1, c1, call) := WriteBuffer base r f c buffer length in
      let '(rets, calls, f2, c2) := WriteBuffer_each base r buffer rest f1 c1 in
      (ret :: rets, call :: calls, f2, c2)
  end.

(** [GetSize()], with the [forceStat] flag of the [Stat] the session was
    asked for, if any. *)
Definition GetSize (r : Remote) (f : TNetXNGFile) : Z * option bool :=
  if negb (IsUseable f) then (-1, None)
  else
    let forceStat := negb (bool_decide (fMode f = OF_Read)) in
    match Stat r forceStat with
    | None => (-1, Some forceStat)
    | Some size => (to_Long64_t size, Some forceStat)
    end.

(** [Close()]: the session is closed when its [Close] succeeds, and the
    file becomes a zombie when it fails. *)
Definition Close (base : TFileBase) (r : Remote) (f : TNetXNGFile)
  : TNetXNGFile :=
  let f1 := TFileClose base f in
  if negb (IsOK (CloseSession r)) then MakeZombie f1
  else set_session f1 false (fMode f1).

(** The constructor, on the object [f0] the constructor of [TFile] leaves:
    the session is new and not open.  [SetEnv] acts on the environment of the
    process and is modelled on its own. *)
Definition TNetXNGFile_new (base : TFileBase) (s : Session) (r : Remote)
    (f0 : TNetXNGFile) (mode : string) (parallelopen : bool) : TNetXNGFile :=
  let f1 :=
    mkFile (fZombie f0) false (ParseOpenMode mode) (fAsyncOpenStatus f0) 0
           (fInitDone f0) (fReadvIorMax f0) (fReadvIovMax f0)
           (fArchiveOffset f0) (fOffset f0) (fBytesRead f0) (fReadCalls f0) in
  if parallelopen then
    let f2 := TAsyncOpenHandler.new f1 in
    if negb (IsOK (OpenAsync r (fMode f2))) then MakeZombie f2 else f2
  else
    if negb (IsOK (Open s (fMode f1))) then MakeZombie f1
    else
      let f2 := TFileInit base false (set_session f1 true (fMode f1)) in
      (GetVectorReadLimits s f2).2.

(** A base class without caches, whose [Init] and [Close] leave the fields
    of the model alone. *)
Definition plain_base : TFileBase :=
  mkBase (fun f _ _ => (0, f)) (fun f _ _ => (0, f)) (fun _ f => f)
         (fun f => f).

(** A session that reads half of what it is asked for, and refuses writes
    beyond the offset 8. *)
Definition short_remote : Remote :=
  mkRemote (fun _ => mkStatus false 11) (fun _ => Some 100)
           (fun _ size _ => (status_ok, size / 2))
           (fun offset _ _ => if offset <? 8 then status_ok else mkStatus false 12)
           status_ok.

Definition zero_counters : Counters := mkCounters 0 0 0 0.

(** ** SetEnv: the mapping of the ROOT and xrootd environments *)

(** A call on the environment of the xrootd client. *)
Inductive xrd_put : Type :=
  | PutInt (key : string) (value : Z)
  | PutString (key value : string).

(** One block of [SetEnv].  A block reads the resource [resource] of [gEnv]
    (with a default) and, when the value is not empty, hands it on: to the
    client under [key], unless the variable [guard] of the process is set
    and not empty, or to the variable [var] of the process, always or unless
    [var] is set and not empty already.  One block sets the netrc file. *)
Inductive env_row : Type :=
  | RowPutInt (resource guard key : string)
  | RowPutString (resource guard key : string)
  | RowNetrc
  | RowSetenv (resource dflt var : string) (guarded : bool).

(** The blocks of [SetEnv], in the order of the source. *)
Definition SetEnv_rows : list env_row :=
  [ RowPutInt "NetXNG.ConnectionWindow" "XRD_CONNECTIONWINDOW" "ConnectionWindow";
    RowPutInt "NetXNG.ConnectionRetry" "XRD_CONNECTIONRETRY" "RequestTimeout";
    RowPutInt "NetXNG.RequestTimeout" "XRD_REQUESTTIMEOUT" "RequestTimeout";
    RowPutInt "NetXNG.SubStreamsPerChannel" "XRD_SUBSTREAMSPERCHANNEL"
              "SubStreamsPerChannel";
    RowPutInt "NetXNG.TimeoutResolution" "XRD_TIMEOUTRESOLUTION"
              "TimeoutResolution";
    RowPutInt "NetXNG.StreamErrorWindow" "XRD_STREAMERRORWINDOW"
              "StreamErrorWindow";
    RowPutInt "NetXNG.RunForkHandler" "XRD_RUNFORKHANDLER" "RunForkHandler";
    RowPutInt "NetXNG.RedirectLimit" "XRD_REDIRECTLIMIT" "RedirectLimit";
    RowPutInt "NetXNG.WorkerThreads" "XRD_WORKERTHREADS" "WorkerThreads";
    RowPutInt "NetXNG.CPChunkSize" "XRD_CPCHUNKSIZE" "CPChunkSize";
    RowPutInt "NetXNG.CPParallelChunks" "XRD_CPPARALLELCHUNKS"
              "CPParallelChunks";
    RowPutString "NetXNG.PollerPreference" "XRD_POLLERPREFERENCE"
                 "PollerPreference";
    RowPutString "NetXNG.ClientMonitor" "XRD_CLIENTMONITOR" "ClientMonitor";
    RowPutString "NetXNG.ClientMonitorParam" "XRD_CLIENTMONITORPARAM"
                 "ClientMonitorParam";
    RowNetrc;
    RowSetenv "XSec.Pwd.ALogFile" "" "XrdSecPWDALOGFILE" false;
    RowSetenv "XSec.Pwd.ServerPuk" "" "XrdSecPWDSRVPUK" false;
    RowSetenv "XSec.GSI.CAdir" "" "XrdSecGSICADIR" false;
    RowSetenv "XSec.GSI.CRLdir" "" "XrdSecGSICRLDIR" false;
    RowSetenv "XSec.GSI.CRLextension" "" "XrdSecGSICRLEXT" false;
    RowSetenv "XSec.GSI.UserCert" "" "XrdSecGSIUSERCERT" false;
    RowSetenv "XSec.GSI.UserKey" "" "XrdSecGSIUSERKEY" false;
    RowSetenv "XSec.GSI.UserProxy" "" "XrdSecGSIUSERPROXY" false;
    RowSetenv "XSec.GSI.ProxyValid" "" "XrdSecGSIPROXYVALID" false;
    RowSetenv "XSec.GSI.ProxyKeyBits" "" "XrdSecGSIPROXYKEYBITS" false;
    RowSetenv "XSec.GSI.ProxyForward" "0" "XrdSecGSIPROXYDEPLEN" true;
    RowSetenv "XSec.GSI.CheckCRL" "1" "XrdSecGSICRLCHECK" true;
    RowSetenv "XSec.GSI.DelegProxy" "0" "XrdSecGSIDELEGPROXY" true;
    RowSetenv "XSec.GSI.SignProxy" "1" "XrdSecGSISIGNPROXY" true;
    RowSetenv "XSec.Pwd.AutoLogin" "1" "XrdSecPWDAUTOLOG" true;
    RowSetenv "XSec.Pwd.VerifySrv" "1" "XrdSecPWDVERIFYSRV" true ].

(** The variables of the process ([gSystem->Getenv], [gSystem->Setenv]) and
    the calls made on the environment of the client, in order. *)
Record env_state : Type := mkEnv {
  environ : gmap string string;
  xrd_puts : list xrd_put
}.

(** [gEnv->GetValue(name, dflt)]. *)
Definition GetValue (gEnv : gmap string string) (name dflt : string) : string :=
  default dflt (gEnv !! name).

(** [val.Length() > 0]. *)
Definition nonempty (val : string) : bool := negb (bool_decide (val = ""%string)).

(** [!(cenv = gSystem->Getenv(var)) || strlen(cenv) <= 0]. *)
Definition unset_or_empty (env : gmap string string) (var : string) : bool :=
  match env !! var with
  | None => true
  | Some cenv => bool_decide (cenv = ""%string)
  end.

Section SetEnv.

(** [TString::Atoi] and [gSystem->HomeDirectory()], which are not among the
    sources, and the resources of [gEnv]. *)
Variable Atoi : string -> Z.
Variable HomeDirectory : string.
Variable gEnv : gmap string string.

Definition apply_row (st : env_state) (row : env_row) : env_state :=
  match row with
  | RowPutInt resource guard key =>
      let val := GetValue gEnv resource "" in
      if nonempty val && unset_or_empty (environ st) guard
      then mkEnv (environ st) (xrd_puts st ++ [PutInt key (Atoi val)])
      else st
  | RowPutString resource guard key =>
      let val := GetValue gEnv resource "" in
      if nonempty val && unset_or_empty (environ st) guard
      then mkEnv (environ st) (xrd_puts st ++ [PutString key val])
      else st
  | RowNetrc =>
      mkEnv (<["XrdSecNETRC"%string :=
                String.app HomeDirectory "/.rootnetrc"]> (environ st))
            (xrd_puts st)
  | RowSetenv resource dflt var guarded =>
      let val := GetValue gEnv resource dflt in
      if nonempty val && (negb guarded || unset_or_empty (environ st) var)
      then mkEnv (<[var := val]> (environ st)) (xrd_puts st)
      else st
  end.

Definition run_rows (rows : list env_row) (st : env_state) : env_state :=
  fold_left apply_row rows st.

Definition SetEnv (st : env_state) : env_state := run_rows SetEnv_rows st.

(** The call a block makes on the client when the process has the
    variables [env]. *)
Definition row_put (env : gmap string string) (row : env_row) : option xrd_put :=
  match row with
  | RowPutInt resource guard key =>
      let val := GetValue gEnv resource "" in
      if nonempty val && unset_or_empty env guard
      then Some (PutInt key (Atoi val)) else None
  | RowPutString resource guard key =>
      let val := GetValue gEnv resource "" in
      if nonempty val && unset_or_empty env guard
      then Some (PutString key val) else None
  | _ => None
  end.

End SetEnv.

(** The variable of the process a block may set, and the variable a block
    for the client looks at. *)
Definition row_target (row : env_row) : option string :=
  match row with
  | RowNetrc => Some "XrdSecNETRC"%string
  | RowSetenv _ _ var _ => Some var
  | _ => None
  end.

Definition row_guard (row : env_row) : option string :=
  match row with
  | RowPutInt _ guard _ | RowPutString _ guard _ => Some guard
  | _ => None
  end.

Definition put_key (p : xrd_put) : string :=
  match p with
  | PutInt key _ | PutString key _ => key
  end.

(** * Properties *)

(** ** Conversions *)

Lemma to_Int_t_id z : - 2 ^ 31 <= z < 2 ^ 31 -> to_Int_t z = z.
Proof. intros H. unfold to_Int_t. rewrite Z.mod_small; lia. Qed.

Lemma to_uint32_id z : 0 <= z < 2 ^ 32 -> to_uint32 z = z.
Proof. intros H. unfold to_uint32. rewrite Z.mod_small; lia. Qed.

Lemma to_uint64_id z : 0 <= z < 2 ^ 64 -> to_uint64 z = z.
Proof. intros H. unfold to_uint64. rewrite Z.mod_small; lia. Qed.

(** ** Splitting one descriptor *)

Lemma max_size_chunks_lengths M buffer position n :
  chunk_length <$> max_size_chunks M buffer position n
  = replicate n (to_uint32 M).
Proof.
  unfold max_size_chunks. generalize 0%nat as a.
  induction n as [|n IH]; intros a; simpl; [reflexivity|].
  f_equal. apply IH.
Qed.

Lemma max_size_chunks_length M buffer position n :
  length (max_size_chunks M buffer position n) = n.
Proof. unfold max_size_chunks. by rewrite length_fmap, length_seq. Qed.

Lemma sum_replicate (n : nat) (x : Z) :
  foldr Z.add 0 (replicate n x) = Z.of_nat n * x.
Proof. induction n as [|n IH]; simpl; [lia|]. rewrite IH. lia. Qed.

Lemma sum_app (l1 l2 : list Z) :
  foldr Z.add 0 (l1 ++ l2) = foldr Z.add 0 l1 + foldr Z.add 0 l2.
Proof. induction l1 as [|x l1 IH]; simpl; [lia|]. rewrite IH. lia. Qed.

Example plan_scenario :
  (map (map chunk_length)) <$>
    plan_chunk_lists default_ior_max default_iov_max 0 [(0, 100); (100, 5000000)]
  = Some [[100; 2097136; 2097136; 805728]].
Proof. vm_compute. reflexivity. Qed.

(** C1 (as the code has it).  With a positive chunk limit [M], a descriptor
    of positive length [L] becomes one chunk of length [L] when [L <= M];
    when [L > M] it becomes [L / M] chunks of length [M] followed by a
    remainder chunk of length [L mod M], which is pushed also when it is
    zero.  The lengths add up to [L], and the number of chunks is
    [ceil (L / M)] except when [M] divides an [L > M], where it is one more. *)
Theorem descriptor_chunks_lengths M buffer position L :
  0 < M <= Int_t_max -> 0 < L <= Int_t_max ->
  exists cs,
    descriptor_chunks M buffer position L = Some cs
    /\ chunk_length <$> cs
       = (if L <=? M then [L]
          else replicate (Z.to_nat (L / M)) M ++ [L mod M])
    /\ foldr Z.add 0 (chunk_length <$> cs) = L
    /\ Z.of_nat (length cs)
       = (if (M <? L) && (L mod M =? 0) then L / M + 1 else ceil_div L M).
Proof.
  unfold Int_t_max. intros HM HL. unfold descriptor_chunks.
  destruct (Z.ltb_spec M L) as [Hlt|Hge].
  - destruct (Z.eqb_spec M 0) as [->|_]; [lia|].
    rewrite Z.quot_div_nonneg, Z.rem_mod_nonneg by lia.
    assert (Hdiv : 1 <= L / M) by (apply Z.div_le_lower_bound; lia).
    assert (Hmod : 0 <= L mod M < M) by (apply Z.mod_pos_bound; lia).
    assert (Heq : L = M * (L / M) + L mod M) by (apply Z.div_mod; lia).
    eexists. split; [reflexivity|].
    rewrite fmap_app, max_size_chunks_lengths. simpl.
    rewrite !to_uint32_id by lia.
    destruct (Z.leb_spec L M) as [?|_]; [lia|].
    split; [reflexivity|]. split.
    + rewrite sum_app, sum_replicate. simpl. rewrite Z2Nat.id by lia. lia.
    + rewrite length_app, max_size_chunks_length. simpl.
      rewrite Nat2Z.inj_add, Z2Nat.id by lia. change (Z.of_nat 1) with 1.
      destruct (Z.eqb_spec (L mod M) 0) as [H0|H0]; simpl; [reflexivity|].
      unfold ceil_div.
      apply Z.div_unique with (r := L mod M - 1); lia.
  - eexists. split; [reflexivity|]. simpl.
    rewrite to_uint32_id by lia.
    destruct (Z.leb_spec L M) as [_|?]; [|lia].
    split; [reflexivity|]. split; [lia|].
    change (Z.of_nat (length [_])) with 1. unfold ceil_div.
    apply Z.div_unique with (r := L - 1); lia.
Qed.

Lemma descriptor_chunks_lengths_witness :
  0 < 4 <= Int_t_max /\ 0 < 10 <= Int_t_max /\
  exists cs,
    descriptor_chunks 4 0 16 10 = Some cs
    /\ chunk_length <$> cs
       = (if 10 <=? 4 then [10]
          else replicate (Z.to_nat (10 / 4)) 4 ++ [10 mod 4])
    /\ foldr Z.add 0 (chunk_length <$> cs) = 10
    /\ Z.of_nat (length cs)
       = (if (4 <? 10) && (10 mod 4 =? 0) then 10 / 4 + 1 else ceil_div 10 4).
Proof.
  assert (H4 : 0 < 4 <= Int_t_max) by (unfold Int_t_max; lia).
  assert (H10 : 0 < 10 <= Int_t_max) by (unfold Int_t_max; lia).
  split; [exact H4|]. split; [exact H10|].
  exact (descriptor_chunks_lengths 4 0 16 10 H4 H10).
Defined.

(** C1 as the specification words it fails when [M] divides [L]: for
    [L = 8] and [M = 4] the code pushes the chunks 4, 4 and a remainder
    chunk of length 0, three chunks where [ceil (L / M)] is two. *)
Lemma descriptor_chunks_exact_multiple :
  exists cs,
    descriptor_chunks 4 0 0 8 = Some cs
    /\ chunk_length <$> cs = [4; 4; 0]
    /\ Z.of_nat (length cs) <> ceil_div 8 4.
Proof. eexists. split; [reflexivity|]. split; [reflexivity|]. by vm_compute. Qed.

(** ** Closing chunk lists *)

Lemma close_chunk_list_spec V chunkLists chunks chunkLists' chunks' :
  1 <= V ->
  close_chunk_list V chunkLists chunks = Some (chunkLists', chunks') ->
  exists closed,
    chunkLists' = chunkLists ++ closed
    /\ Forall (fun b : ChunkList => Z.of_nat (length b) = V) closed
    /\ concat closed ++ chunks' = chunks
    /\ (Z.of_nat (length chunks) < 2 * V -> Z.of_nat (length chunks') < V).
Proof.
  intros HV. unfold close_chunk_list.
  destruct (Z.eqb_spec (Z.of_nat (length chunks)) V) as [Heq|Hne].
  - intros [= <- <-]. exists [chunks]. split; [reflexivity|].
    split; [by constructor|]. split; [simpl; by rewrite !app_nil_r|].
    simpl. lia.
  - destruct (Z.ltb_spec V (Z.of_nat (length chunks))) as [Hlt|Hge].
    + destruct (Z.ltb_spec V 0) as [?|_]; [lia|].
      intros [= <- <-]. exists [take (Z.to_nat V) chunks].
      split; [reflexivity|]. split.
      * constructor; [|constructor]. rewrite length_take. lia.
      * split; [simpl; by rewrite app_nil_r, take_drop|].
        rewrite length_drop. lia.
    + intros [= <- <-]. exists []. split; [by rewrite app_nil_r|].
      split; [constructor|]. split; [reflexivity|]. lia.
Qed.

Lemma build_chunk_lists_spec M V buffer descs :
  1 <= V ->
  forall chunkLists chunks chunkLists' chunks',
    build_chunk_lists M V buffer descs chunkLists chunks
      = Some (chunkLists', chunks') ->
    exists closed all,
      chunkLists' = chunkLists ++ closed
      /\ Forall (fun b : ChunkList => Z.of_nat (length b) = V) closed
      /\ all_chunks M buffer descs = Some all
      /\ concat closed ++ chunks' = chunks ++ all
      /\ (Forall (fun d : Z * Z =>
                    forall cs, descriptor_chunks M buffer d.1 d.2 = Some cs ->
                               Z.of_nat (length cs) <= V) descs ->
          Z.of_nat (length chunks) < V -> Z.of_nat (length chunks') < V).
Proof.
  intros HV. unfold all_chunks.
  induction descs as [|[position len] rest IH]; intros lists chunks lists' chunks'.
  - intros [= <- <-]. exists [], []. rewrite !app_nil_r.
    repeat split; [constructor | done].
  - simpl. destruct (descriptor_chunks M buffer position len) as [cs|] eqn:Hcs;
      [simpl|discriminate].
    destruct (close_chunk_list V lists (chunks ++ cs)) as [[lists1 chunks1]|] eqn:Hcl;
      [simpl|discriminate].
    intros Hb.
    destruct (close_chunk_list_spec _ _ _ _ _ HV Hcl)
      as (closed1 & -> & Hfull1 & Hcat1 & Hlen1).
    destruct (IH _ _ _ _ Hb) as (closed2 & all & -> & Hfull2 & Hall & Hcat2 & Hlen2).
    exists (closed1 ++ closed2), (cs ++ all).
    split; [by rewrite app_assoc|].
    split; [by apply Forall_app|].
    split.
    { destruct (mapM (fun d : Z * Z => descriptor_chunks M buffer d.1 d.2) rest)
        as [css|]; [|discriminate].
      simpl in *. by injection Hall as <-. }
    split.
    + rewrite concat_app, <- !app_assoc, Hcat2, !app_assoc, Hcat1. reflexivity.
    + intros Hsmall Hlt. inversion Hsmall as [|? ? Hd Hrest]; subst.
      apply Hlen2; [exact Hrest|]. apply Hlen1.
      rewrite length_app. specialize (Hd cs Hcs). simpl in Hd. lia.
Qed.

(** C2 (as the code has it).  With a batch limit [V] of at least one, the
    chunk lists the planner hands to the dispatch loop are a run of lists of
    exactly [V] chunks followed by one last list, which is pushed whatever it
    holds; the lists, concatenated in order, are the chunks of the
    descriptors in descriptor order, so closing a list at the limit drops
    and reorders nothing.  When no descriptor yields more than [V] chunks the
    last list has fewer than [V] chunks. *)
Theorem plan_chunk_lists_batches M V buffer descs batches :
  1 <= V ->
  plan_chunk_lists M V buffer descs = Some batches ->
  exists full last all,
    batches = full ++ [last]
    /\ Forall (fun b : ChunkList => Z.of_nat (length b) = V) full
    /\ all_chunks M buffer descs = Some all
    /\ concat batches = all
    /\ (Forall (fun d : Z * Z =>
                  forall cs, descriptor_chunks M buffer d.1 d.2 = Some cs ->
                             Z.of_nat (length cs) <= V) descs ->
        Z.of_nat (length last) < V).
Proof.
  intros HV. unfold plan_chunk_lists.
  destruct (build_chunk_lists M V buffer descs [] []) as [[lists chunks]|] eqn:Hb;
    [simpl|discriminate].
  intros [= <-].
  destruct (build_chunk_lists_spec _ _ _ _ HV _ _ _ _ Hb)
    as (closed & all & -> & Hfull & Hall & Hcat & Hlen).
  exists closed, chunks, all. simpl in *.
  split; [reflexivity|]. split; [exact Hfull|]. split; [exact Hall|].
  split; [rewrite concat_app; simpl; by rewrite app_nil_r|].
  intros Hsmall. apply Hlen; [exact Hsmall|]. simpl. lia.
Qed.

Lemma plan_chunk_lists_batches_witness :
  1 <= 2 /\
  plan_chunk_lists 4 2 0 [(0, 10)]
    = Some [[mkChunkInfo 0 4 0; mkChunkInfo 4 4 0]; [mkChunkInfo 8 2 0]] /\
  exists full last all,
    [[mkChunkInfo 0 4 0; mkChunkInfo 4 4 0]; [mkChunkInfo 8 2 0]]
      = full ++ [last]
    /\ Forall (fun b : ChunkList => Z.of_nat (length b) = 2) full
    /\ all_chunks 4 0 [(0, 10)] = Some all
    /\ concat [[mkChunkInfo 0 4 0; mkChunkInfo 4 4 0]; [mkChunkInfo 8 2 0]] = all
    /\ (Forall (fun d : Z * Z =>
                  forall cs, descriptor_chunks 4 0 d.1 d.2 = Some cs ->
                             Z.of_nat (length cs) <= 2) [(0, 10)] ->
        Z.of_nat (length last) < 2).
Proof.
  assert (HV : 1 <= 2) by lia.
  assert (Hplan : plan_chunk_lists 4 2 0 [(0, 10)]
            = Some [[mkChunkInfo 0 4 0; mkChunkInfo 4 4 0]; [mkChunkInfo 8 2 0]])
    by reflexivity.
  split; [exact HV|]. split; [exact Hplan|].
  exact (plan_chunk_lists_batches 4 2 0 [(0, 10)] _ HV Hplan).
Defined.

(** C2 as the specification words it fails on the lower bound: the last
    chunk list is pushed without a test, so a call with no descriptor plans
    one chunk list with no chunk in it. *)
Lemma plan_chunk_lists_empty_batch :
  exists batches,
    plan_chunk_lists default_ior_max default_iov_max 0 [] = Some batches
    /\ ~ Forall (fun b : ChunkList =>
                   1 <= Z.of_nat (length b) <= default_iov_max) batches.
Proof.
  exists [[]]. split; [reflexivity|].
  intros H. inversion H as [|? ? Hb _]; subst. simpl in Hb. lia.
Qed.

(** The same happens when the last descriptor fills a chunk list exactly. *)
Example plan_exact_fill :
  (map (map chunk_length)) <$> plan_chunk_lists 4 2 0 [(0, 3); (3, 1)]
  = Some [[3; 1]; []].
Proof. reflexivity. Qed.

(** Only one chunk list is closed per descriptor: a descriptor that yields
    more than twice the limit leaves more than the limit behind. *)
Example plan_overflow_twice :
  (map (map chunk_length)) <$> plan_chunk_lists 4 2 0 [(0, 20)]
  = Some [[4; 4]; [4; 4; 4; 0]].
Proof. reflexivity. Qed.

(** ** Zero-length descriptors *)

Lemma descriptor_chunks_empty M buffer position :
  descriptor_chunks M buffer position 0
  = Some [mkChunkInfo (to_uint64 (to_Int_t position)) 0 buffer].
Proof.
  unfold descriptor_chunks.
  destruct (Z.ltb_spec M 0) as [Hlt|Hge]; [|reflexivity].
  destruct (Z.eqb_spec M 0) as [->|Hne]; [lia|].
  rewrite Z.quot_0_l, Z.rem_0_l by exact Hne. simpl.
  rewrite Z.add_0_r. reflexivity.
Qed.



(** ** Chunk offsets *)

Lemma max_size_chunks_lookup M buffer position n i c :
  max_size_chunks M buffer position n !! i = Some c ->
  (i < n)%nat
  /\ c = ChunkInfo_new (to_Int_t (position + Z.of_nat i * M)) M buffer.
Proof.
  unfold max_size_chunks. rewrite list_lookup_fmap.
  destruct (seq 0 n !! i) as [j|] eqn:Hj; [|discriminate].
  apply lookup_seq in Hj as [-> Hlt]. simpl. by intros [= <-].
Qed.

(** While the position and the end of the descriptor fit an [Int_t], the
    chunks of a descriptor start at its position and each chunk starts where
    the chunk before it ends. *)
Lemma descriptor_chunks_offsets M buffer position L :
  0 < M <= Int_t_max -> 0 < L -> 0 <= position ->
  position + L <= Int_t_max ->
  exists cs,
    descriptor_chunks M buffer position L = Some cs
    /\ forall i c, cs !! i = Some c ->
         chunk_offset c
         = position + foldr Z.add 0 (chunk_length <$> take i cs).
Proof.
  unfold Int_t_max. intros HM HL Hp Hend. unfold descriptor_chunks.
  destruct (Z.ltb_spec M L) as [Hlt|Hge].
  - destruct (Z.eqb_spec M 0) as [->|_]; [lia|].
    rewrite Z.quot_div_nonneg, Z.rem_mod_nonneg by lia.
    assert (Hdiv : 1 <= L / M) by (apply Z.div_le_lower_bound; lia).
    assert (Hmod : 0 <= L mod M < M) by (apply Z.mod_pos_bound; lia).
    assert (Heq : L = M * (L / M) + L mod M) by (apply Z.div_mod; lia).
    set (n := Z.to_nat (L / M)). assert (Hn : Z.of_nat n = L / M) by lia.
    eexists. split; [reflexivity|]. intros i c Hi.
    apply lookup_app_Some in Hi as [Hi|[Hge Hi]].
    + apply max_size_chunks_lookup in Hi as [Hlt' ->].
      rewrite take_app_le by (rewrite max_size_chunks_length; lia).
      rewrite fmap_take, max_size_chunks_lengths, take_replicate, sum_replicate.
      rewrite Nat.min_l by lia. simpl.
      assert (Hi : 0 <= Z.of_nat i * M <= L).
      { split; [lia|]. transitivity (L / M * M); [|lia].
        apply Z.mul_le_mono_nonneg_r; lia. }
      rewrite to_Int_t_id, to_uint64_id, to_uint32_id by lia. reflexivity.
    + rewrite max_size_chunks_length in Hge, Hi.
      apply list_lookup_singleton_Some in Hi as [Hi <-].
      assert (i = n) as -> by lia.
      rewrite take_app_length' by (by rewrite max_size_chunks_length).
      rewrite max_size_chunks_lengths, sum_replicate. simpl.
      assert (Hi' : 0 <= Z.of_nat n * M <= L) by (rewrite Hn; lia).
      rewrite to_Int_t_id, to_uint64_id, to_uint32_id by lia. reflexivity.
  - eexists. split; [reflexivity|]. intros i c Hi.
    apply list_lookup_singleton_Some in Hi as [-> <-]. simpl.
    rewrite to_Int_t_id, to_uint64_id by lia. lia.
Qed.

(** C6 at the failing input.  The local [offset] of [ReadBuffers] is an
    [Int_t], so a position is cut to 32 bits before it reaches the chunk: the
    descriptor at position 2^32 is planned at offset 0, and the one at 2^31
    at offset 2^64 - 2^31. *)
Theorem plan_chunk_lists_offset_truncated :
  plan_chunk_lists default_ior_max default_iov_max 0 [(4294967296, 10)]
    = Some [[mkChunkInfo 0 10 0]]
  /\ plan_chunk_lists default_ior_max default_iov_max 0 [(2147483648, 10)]
    = Some [[mkChunkInfo 18446744071562067968 10 0]].
Proof. split; reflexivity. Qed.

(** ** The join *)

Lemma join_inv_init resp : join_inv resp (join_init resp).
Proof.
  unfold join_inv, join_init. simpl.
  split; [by rewrite length_replicate|].
  split; [by rewrite length_imap|].
  split.
  - intros i s Hin. apply list_elem_of_lookup in Hin as [j Hj].
    rewrite list_lookup_imap in Hj.
    destruct (resp !! j) as [s'|] eqn:Hr; [|discriminate].
    simpl in Hj. by injection Hj as <- <-.
  - intros i s Hr. right. exists s. apply list_elem_of_lookup. exists i.
    by rewrite list_lookup_imap, Hr.
Qed.

Lemma join_inv_step resp st st' :
  join_inv resp st -> join_step st st' -> join_inv resp st'.
Proof.
  intros (Hlen & Hcount & Hfl & Hslots) Hstep.
  destruct Hstep as [statuses sem before idx status after waits statuses' sem' Hh
                    | statuses sem in_flight waits sem' Hw]; simpl in *.
  - unfold TAsyncReadvHandler.HandleResponse in Hh.
    destruct (decide (idx < length statuses)%nat) as [Hidx|]; [|discriminate].
    injection Hh as <- <-. unfold join_inv, TSemaphore_Post. simpl.
    split; [by rewrite length_insert|].
    split; [rewrite length_app in *; simpl in *; lia|].
    split.
    + intros i s Hin. apply Hfl.
      rewrite elem_of_app, elem_of_cons. rewrite elem_of_app in Hin. tauto.
    + intros i s Hr. destruct (decide (i = idx)) as [->|Hne].
      * left. rewrite list_lookup_insert_eq by exact Hidx.
        assert (resp !! idx = Some status) as Hst.
        { apply Hfl. rewrite elem_of_app, elem_of_cons. tauto. }
        congruence.
      * rewrite list_lookup_insert_ne by congruence.
        destruct (Hslots i s Hr) as [?|[s' Hin]]; [by left|].
        right. exists s'.
        rewrite elem_of_app, elem_of_cons in Hin. rewrite elem_of_app.
        destruct Hin as [?|[[= ? ?]|?]]; [by left|done|by right].
  - destruct sem as [|sem0]; [discriminate|]. injection Hw as <-.
    unfold join_inv. simpl. split; [exact Hlen|]. split; [lia|]. by split.
Qed.

Lemma join_inv_reachable resp st :
  rtc join_step (join_init resp) st -> join_inv resp st.
Proof.
  revert st. apply rtc_ind_r.
  - apply join_inv_init.
  - intros y z _ Hstep IH. by eapply join_inv_step.
Qed.

(** When the wait loop is through, every handler has run and every slot
    holds the response of its index. *)
Lemma join_complete resp st :
  rtc join_step (join_init resp) st -> join_waits st = 0%nat ->
  join_in_flight st = [] /\ join_statuses st = Some <$> resp.
Proof.
  intros Hrun Hw.
  destruct (join_inv_reachable _ _ Hrun) as (Hlen & Hcount & Hfl & Hslots).
  assert (Hnil : join_in_flight st = []).
  { apply length_zero_iff_nil. lia. }
  split; [exact Hnil|]. apply list_eq. intros i.
  rewrite list_lookup_fmap. destruct (resp !! i) as [s|] eqn:Hr; simpl.
  - destruct (Hslots i s Hr) as [?|[s' Hin]]; [done|].
    rewrite Hnil in Hin. by apply elem_of_nil in Hin.
  - apply lookup_ge_None. apply lookup_ge_None in Hr. lia.
Qed.

Lemma deliver_run arrival :
  forall in_flight statuses sem waits,
    arrival ≡ₚ in_flight ->
    (forall i s, (i, s) ∈ in_flight -> (i < length statuses)%nat) ->
    exists statuses',
      deliver arrival statuses sem = Some (statuses', (sem + length arrival)%nat)
      /\ rtc join_step (mkJoin statuses sem in_flight waits)
                       (mkJoin statuses' (sem + length arrival) [] waits).
Proof.
  induction arrival as [|[idx status] rest IH]; intros fl statuses sem waits Hp Hidx.
  - apply Permutation_nil_l in Hp. subst fl. exists statuses. simpl.
    rewrite Nat.add_0_r. by split.
  - assert (Hin : (idx, status) ∈ fl) by (rewrite <- Hp; apply elem_of_cons; by left).
    apply list_elem_of_split in Hin as (before & after & ->).
    apply Permutation_cons_app_inv in Hp.
    assert (Hlt : (idx < length statuses)%nat).
    { apply (Hidx idx status). rewrite elem_of_app, elem_of_cons. tauto. }
    assert (Hh : TAsyncReadvHandler.HandleResponse idx status statuses sem
                 = Some (<[idx := Some status]> statuses, S sem)).
    { unfold TAsyncReadvHandler.HandleResponse. by rewrite decide_True. }
    destruct (IH (before ++ after) (<[idx := Some status]> statuses) (S sem) waits Hp)
      as (statuses' & Hd & Hrun).
    { intros i s Hin. rewrite length_insert. apply (Hidx i s).
      rewrite elem_of_app, elem_of_cons. rewrite elem_of_app in Hin. tauto. }
    exists statuses'. simpl. rewrite Hh. simpl.
    replace (sem + S (length rest))%nat with (S sem + length rest)%nat by lia.
    split; [exact Hd|].
    eapply rtc_l; [|exact Hrun]. by constructor.
Qed.

Lemma wait_run statuses n :
  rtc join_step (mkJoin statuses n [] n) (mkJoin statuses 0 [] 0).
Proof.
  induction n as [|n IH]; [done|].
  eapply rtc_l; [|exact IH]. by constructor.
Qed.

Lemma check_errors_first_failure resp :
  forall k st idx deleted,
    lowest_failure resp k st ->
    check_errors (Some <$> resp) idx deleted
    = ScanFailed (idx + k) st (deleted ++ seq idx k).
Proof.
  induction resp as [|s resp IH]; intros k st idx deleted (Hk & Hbad & Hlow).
  - by rewrite lookup_nil in Hk.
  - rewrite fmap_cons. cbn [check_errors]. destruct k as [|k].
    + injection Hk as ->. rewrite Hbad. cbn [negb].
      simpl. by rewrite Nat.add_0_r, app_nil_r.
    + rewrite (Hlow 0%nat s) by (done || lia). cbn [negb].
      rewrite (IH k st (S idx) (deleted ++ [idx])).
      * rewrite <- app_assoc. f_equal. lia.
      * split; [exact Hk|]. split; [exact Hbad|].
        intros j st' Hj Hr. apply (Hlow (S j) st'); [lia|exact Hr].
Qed.

(** As soon as one response reports a failure there is a failure of lowest
    index. *)
Lemma lowest_failure_exists resp :
  Exists (fun st => IsOK st = false) resp ->
  exists k st, lowest_failure resp k st.
Proof.
  induction resp as [|s resp IH]; intros Hex; [by apply Exists_nil in Hex|].
  destruct (IsOK s) eqn:Hs.
  - apply Exists_cons in Hex as [Hbad|Hex]; [congruence|].
    destruct (IH Hex) as (k & st & Hk & Hbad & Hlow).
    exists (S k), st. split; [exact Hk|]. split; [exact Hbad|].
    intros [|j] st' Hj Hr.
    + simpl in Hr. by injection Hr as <-.
    + apply (Hlow j st'); [lia|exact Hr].
  - exists 0%nat, s. split; [reflexivity|]. split; [exact Hs|]. intros j st' Hj. lia.
Qed.

Lemma check_errors_all_ok resp :
  forall idx deleted,
    Forall (fun st => IsOK st = true) resp ->
    check_errors (Some <$> resp) idx deleted
    = ScanOK (deleted ++ seq idx (length resp)).
Proof.
  induction resp as [|s resp IH]; intros idx deleted Hok.
  - simpl. by rewrite app_nil_r.
  - inversion Hok as [|? ? Hs Hrest]; subst.
    rewrite fmap_cons. cbn [check_errors]. rewrite Hs. cbn [negb].
    rewrite IH by exact Hrest. by rewrite <- app_assoc.
Qed.

Lemma dispatch_all_taken s chunkLists :
  (forall i chunks, IsOK (VectorRead s i chunks) = true) ->
  forall idx, dispatch s idx chunkLists = ((idx + length chunkLists)%nat, None).
Proof.
  intros Hok. induction chunkLists as [|chunks rest IH]; intros idx; simpl.
  - by rewrite Nat.add_0_r.
  - rewrite Hok. simpl. rewrite IH. f_equal. lia.
Qed.

Lemma imap_pair_index_lt (resp : list XRootDStatus) i s :
  (i, s) ∈ imap pair resp -> (i < length resp)%nat.
Proof.
  intros Hin. apply list_elem_of_lookup in Hin as [j Hj].
  rewrite list_lookup_imap in Hj.
  destruct (resp !! j) as [s'|] eqn:Hr; [|discriminate].
  simpl in Hj. injection Hj as <- <-. by eapply lookup_lt_Some.
Qed.

(** Whatever the order in which the responses arrive, the handlers can all
    run and the wait loop gets through. *)
Lemma join_run_exists resp arrival :
  arrival ≡ₚ imap pair resp ->
  exists statuses,
    deliver arrival (replicate (length resp) None) 0
      = Some (statuses, length resp)
    /\ rtc join_step (join_init resp) (mkJoin statuses 0 [] 0).
Proof.
  intros Hp.
  assert (Hlen : length arrival = length resp).
  { by rewrite (Permutation_length Hp), length_imap. }
  destruct (deliver_run arrival (imap pair resp) (replicate (length resp) None)
              0%nat (length resp) Hp) as (statuses & Hd & Hrun).
  { intros i s Hin. rewrite length_replicate. by eapply imap_pair_index_lt. }
  simpl in Hd, Hrun. rewrite Hlen in Hd, Hrun.
  exists statuses. split; [exact Hd|].
  etrans; [exact Hrun|]. apply wait_run.
Qed.

(** C3 at the failing inputs.  Take a usable file, a request whose chunk
    lists are all taken by the session, and responses among which batch [k]
    is the failure of lowest index.  A run of the join cannot leave the wait
    loop while a response is in flight; when it leaves it every slot holds
    the response of its index, so the scan prints, through [Error], the
    status of batch [k], having deleted the slots before [k]; and for every
    arrival order such a run exists.  The call itself is then undefined: the
    failing branch deletes the status vector and reads it again, and no
    return of [kTRUE] is produced. *)
Theorem ReadBuffers_reports_lowest_failure sess f buffer descs chunkLists k st :
  IsUseable f = true ->
  plan_chunk_lists (fReadvIorMax f) (fReadvIovMax f) buffer
                   (shift_positions (fArchiveOffset f) descs)
    = Some chunkLists ->
  (forall i chunks, IsOK (VectorRead sess i chunks) = true) ->
  lowest_failure (readv_response sess <$> seq 0 (length chunkLists)) k st ->
  (forall s,
     rtc join_step
         (join_init (readv_response sess <$> seq 0 (length chunkLists))) s ->
     join_waits s = 0%nat ->
     join_in_flight s = []
     /\ check_errors (join_statuses s) 0 [] = ScanFailed k st (seq 0 k))
  /\ (forall arrival,
        arrival ≡ₚ imap pair (readv_response sess <$> seq 0 (length chunkLists)) ->
        exists statuses,
          deliver arrival (replicate (length chunkLists) None) 0
            = Some (statuses, length chunkLists)
          /\ rtc join_step
                 (join_init (readv_response sess <$> seq 0 (length chunkLists)))
                 (mkJoin statuses 0 [] 0)
          /\ check_errors statuses 0 [] = ScanFailed k st (seq 0 k))
  /\ ReadBuffers sess f buffer descs = None.
Proof.
  intros Huse Hplan Htaken Hlow.
  set (N := length chunkLists) in *.
  set (resp := readv_response sess <$> seq 0 N) in *.
  assert (HN : length resp = N) by (unfold resp; by rewrite length_fmap, length_seq).
  assert (Hscan : check_errors (Some <$> resp) 0 [] = ScanFailed k st (seq 0 k)).
  { by rewrite (check_errors_first_failure resp k st 0 [] Hlow). }
  assert (Hruns : forall s, rtc join_step (join_init resp) s ->
            join_waits s = 0%nat ->
            join_in_flight s = []
            /\ check_errors (join_statuses s) 0 [] = ScanFailed k st (seq 0 k)).
  { intros s Hrun Hw. destruct (join_complete resp s Hrun Hw) as [Hnil ->].
    by split. }
  split; [exact Hruns|split].
  - intros arrival Hp.
    destruct (join_run_exists resp arrival Hp) as (statuses & Hd & Hrun).
    rewrite HN in Hd. exists statuses. split; [exact Hd|]. split; [exact Hrun|].
    by apply (Hruns _ Hrun).
  - unfold ReadBuffers. rewrite Huse. cbn [negb]. rewrite Hplan. simpl.
    rewrite dispatch_all_taken by exact Htaken. simpl. fold N.
    change ((fun i : nat => Some (readv_response sess i)) <$> seq 0 N)
      with ((Some ∘ readv_response sess) <$> seq 0 N).
    rewrite list_fmap_compose. fold resp. rewrite Hscan. reflexivity.
Qed.

Lemma ReadBuffers_reports_lowest_failure_witness :
  IsUseable small_file = true
  /\ plan_chunk_lists (fReadvIorMax small_file) (fReadvIovMax small_file) 0
       (shift_positions (fArchiveOffset small_file) [(0, 1); (1, 1)])
     = Some [[mkChunkInfo 0 1 0]; [mkChunkInfo 1 1 0]; []]
  /\ (forall i chunks, IsOK (VectorRead failing_session i chunks) = true)
  /\ lowest_failure (readv_response failing_session <$> seq 0 3) 1
                    (mkStatus false 3)
  /\ ReadBuffers failing_session small_file 0 [(0, 1); (1, 1)] = None.
Proof.
  assert (Huse : IsUseable small_file = true) by reflexivity.
  assert (Hplan :
    plan_chunk_lists (fReadvIorMax small_file) (fReadvIovMax small_file) 0
      (shift_positions (fArchiveOffset small_file) [(0, 1); (1, 1)])
    = Some [[mkChunkInfo 0 1 0]; [mkChunkInfo 1 1 0]; []]) by reflexivity.
  assert (Htaken :
    forall i chunks, IsOK (VectorRead failing_session i chunks) = true)
    by (intros i chunks; reflexivity).
  assert (Hlow :
    lowest_failure (readv_response failing_session <$> seq 0 3) 1
                   (mkStatus false 3)).
  { split; [reflexivity|]. split; [reflexivity|].
    intros [|j] st' Hj Hr; [|lia]. injection Hr as <-. reflexivity. }
  split; [exact Huse|]. split; [exact Hplan|]. split; [exact Htaken|].
  split; [exact Hlow|].
  exact (proj2 (proj2 (ReadBuffers_reports_lowest_failure failing_session
                         small_file 0 [(0, 1); (1, 1)] _ 1%nat _
                         Huse Hplan Htaken Hlow))).
Defined.

(** ** Requests without data *)




Lemma shift_positions_lengths a descs : (shift_positions a descs).*2 = descs.*2.
Proof.
  unfold shift_positions. destruct (a =? 0); [reflexivity|].
  rewrite <- list_fmap_compose. by apply list_fmap_ext.
Qed.

Lemma shift_positions_length a descs :
  length (shift_positions a descs) = length descs.
Proof.
  unfold shift_positions. destruct (a =? 0); [reflexivity|]. by rewrite length_fmap.
Qed.

(** The submission loop stops at the first list the session rejects. *)
Lemma dispatch_spec s chunkLists :
  forall idx n r,
    dispatch s idx chunkLists = (n, r) ->
    (idx <= n <= idx + length chunkLists)%nat
    /\ (forall i chunks, (idx + i < n)%nat -> chunkLists !! i = Some chunks ->
          IsOK (VectorRead s (idx + i) chunks) = true)
    /\ match r with
       | Some st =>
           exists chunks,
             chunkLists !! (n - idx)%nat = Some chunks
             /\ VectorRead s n chunks = st /\ IsOK st = false
       | None => n = (idx + length chunkLists)%nat
       end.
Proof.
  induction chunkLists as [|chunks rest IH]; intros idx n r; simpl.
  - intros [= <- <-]. split; [lia|]. split; [|lia]. intros i c Hi. lia.
  - destruct (IsOK (VectorRead s idx chunks)) eqn:Hok; simpl.
    + intros Hd. destruct (IH _ _ _ Hd) as (Hn & Hacc & Hr).
      split; [lia|]. split.
      * intros [|i] c Hi Hc; simpl in Hc.
        -- injection Hc as <-. by rewrite Nat.add_0_r.
        -- replace (idx + S i)%nat with (S idx + i)%nat by lia.
           apply Hacc; [lia|exact Hc].
      * destruct r as [st|]; [|lia].
        destruct Hr as (c & Hc & Hst & Hbad). exists c.
        replace (n - idx)%nat with (S (n - S idx)) by lia. by split.
    + intros [= <- <-]. split; [lia|]. split; [intros i c Hi; lia|].
      exists chunks. rewrite Nat.sub_diag. by split.
Qed.




(** The same with descriptors of length zero. *)
Example ReadBuffers_zero_length_submits :
  exists f',
    ReadBuffers good_session default_file 0 [(5, 0); (9, 0)]
    = Some (false,
            mkTrace [[mkChunkInfo 5 0 0; mkChunkInfo 9 0 0]] 1 1 None [0%nat] true,
            f').
Proof. eexists. reflexivity. Qed.

(** With one chunk per list and a session that rejects the second
    submission, the call stops there: two of the three planned lists are
    submitted, and the call returns [kTRUE]. *)
Example ReadBuffers_zero_length_rejected :
  plan_chunk_lists (fReadvIorMax small_file) (fReadvIovMax small_file) 0
                   [(5, 0); (9, 0)]
  = Some [[mkChunkInfo 5 0 0]; [mkChunkInfo 9 0 0]; []]
  /\ ReadBuffers rejecting_session small_file 0 [(5, 0); (9, 0)]
     = Some (true,
             mkTrace [[mkChunkInfo 5 0 0]; [mkChunkInfo 9 0 0]] 1 0
                     (Some (mkStatus false 7)) [] false,
             small_file).
Proof. split; reflexivity. Qed.

(** ** A rejected submission *)

(** When the session rejects a submission the call returns [kTRUE] on the
    spot: it has made no wait, deleted no status slot and freed neither the
    status vector nor the semaphore, whatever number of submissions is in
    flight. *)
Lemma ReadBuffers_rejected sess f buffer descs chunkLists n st :
  IsUseable f = true ->
  plan_chunk_lists (fReadvIorMax f) (fReadvIovMax f) buffer
                   (shift_positions (fArchiveOffset f) descs)
    = Some chunkLists ->
  dispatch sess 0 chunkLists = (n, Some st) ->
  ReadBuffers sess f buffer descs
  = Some (true, mkTrace (take (S n) chunkLists) n 0 (Some st) [] false, f).
Proof.
  intros Huse Hplan Hd. unfold ReadBuffers.
  rewrite Huse. cbn [negb]. rewrite Hplan. simpl. by rewrite Hd.
Qed.

(** C7 at the failing input.  Two descriptors on a file with one chunk per
    list, a session that takes the first submission and rejects the second:
    [ReadBuffers] returns [kTRUE] with one submission in flight, without a
    single wait and without releasing anything. *)
Theorem ReadBuffers_rejected_not_drained :
  ReadBuffers rejecting_session small_file 0 [(0, 1); (1, 1)]
  = Some (true,
          mkTrace [[mkChunkInfo 0 1 0]; [mkChunkInfo 1 1 0]] 1 0
                  (Some (mkStatus false 7)) [] false,
          small_file).
Proof. reflexivity. Qed.

(** The path of a call that succeeds, next to it, consumes every signal
    and releases every slot, the vector and the semaphore. *)
Example ReadBuffers_success_released :
  ReadBuffers good_session small_file 0 [(0, 1); (1, 1)]
  = Some (false,
          mkTrace [[mkChunkInfo 0 1 0]; [mkChunkInfo 1 1 0]; []] 3 3
                  None [0; 1; 2]%nat true,
          mkFile false true OF_Read kAOSSuccess 1 true 4 1 0 0 2 1).
Proof. reflexivity. Qed.

(** ** The asynchronous open status *)

Lemma SetAsyncOpenStatus_stores f status :
  fAsyncOpenStatus (SetAsyncOpenStatus f status) = status
  /\ fInitSignals (SetAsyncOpenStatus f status) = S (fInitSignals f).
Proof. by split. Qed.

Lemma ReOpen_async_status sess f modestr :
  fAsyncOpenStatus (ReOpen sess f modestr).2 = fAsyncOpenStatus f.
Proof.
  unfold ReOpen. repeat (case_match; simpl; try reflexivity).
Qed.

Lemma GetVectorReadLimits_async_status sess f :
  fAsyncOpenStatus (GetVectorReadLimits sess f).2 = fAsyncOpenStatus f.
Proof.
  unfold GetVectorReadLimits. repeat (case_match; simpl; try reflexivity).
Qed.

Lemma ReadBuffers_async_status sess f buffer descs r :
  ReadBuffers sess f buffer descs = Some r ->
  fAsyncOpenStatus r.2 = fAsyncOpenStatus f.
Proof.
  unfold ReadBuffers. intros H.
  repeat (case_match; simplify_option_eq; try reflexivity).
Qed.

(** C8 (as the code has it).  [SetAsyncOpenStatus] stores the status it is
    given and signals, without a look at the status the file has.  Once the
    status is terminal, the operations of the file keep it terminal: the
    open handler stores [kAOSSuccess] or [kAOSFailure] as the response says
    (a response with the outcome already stored leaves the value as it is,
    one with the other outcome replaces it) and signals once more, and
    [ReOpen], [GetVectorReadLimits] and [ReadBuffers] do not write it. *)
Theorem async_open_status_stays_terminal sess op f f' :
  terminal (fAsyncOpenStatus f) = true ->
  run_op sess op f = Some f' ->
  terminal (fAsyncOpenStatus f') = true
  /\ match op with
     | OpHandleOpenResponse st =>
         fAsyncOpenStatus f' = (if IsOK st then kAOSSuccess else kAOSFailure)
         /\ fInitSignals f' = S (fInitSignals f)
     | _ => fAsyncOpenStatus f' = fAsyncOpenStatus f
     end.
Proof.
  intros Hterm Hrun. destruct op as [st|modestr| |buffer descs]; simpl in Hrun.
  - injection Hrun as <-. unfold TAsyncOpenHandler.HandleResponse.
    by destruct (IsOK st).
  - injection Hrun as <-. rewrite ReOpen_async_status. by split.
  - injection Hrun as <-. rewrite GetVectorReadLimits_async_status. by split.
  - destruct (ReadBuffers sess f buffer descs) as [r|] eqn:Hr; [|discriminate].
    simpl in Hrun. injection Hrun as <-.
    rewrite (ReadBuffers_async_status _ _ _ _ _ Hr). by split.
Qed.

Lemma async_open_status_stays_terminal_witness :
  terminal (fAsyncOpenStatus small_file) = true
  /\ run_op good_session (OpHandleOpenResponse (mkStatus false 4)) small_file
     = Some (SetAsyncOpenStatus small_file kAOSFailure)
  /\ terminal (fAsyncOpenStatus (SetAsyncOpenStatus small_file kAOSFailure))
     = true.
Proof.
  assert (Hterm : terminal (fAsyncOpenStatus small_file) = true) by reflexivity.
  assert (Hrun :
    run_op good_session (OpHandleOpenResponse (mkStatus false 4)) small_file
    = Some (SetAsyncOpenStatus small_file kAOSFailure)) by reflexivity.
  split; [exact Hterm|]. split; [exact Hrun|].
  exact (proj1 (async_open_status_stays_terminal good_session
                  (OpHandleOpenResponse (mkStatus false 4)) small_file _
                  Hterm Hrun)).
Defined.

(** C8 as the specification words it fails: on a file whose open has
    succeeded, [SetAsyncOpenStatus(kAOSInProgress)] puts the status back to
    in progress, and a second response, a failing one, turns the success
    into a failure; neither call is without effect. *)
Lemma SetAsyncOpenStatus_after_terminal :
  fAsyncOpenStatus small_file = kAOSSuccess
  /\ fAsyncOpenStatus (SetAsyncOpenStatus small_file kAOSInProgress)
     = kAOSInProgress
  /\ fAsyncOpenStatus
       (TAsyncOpenHandler.HandleResponse small_file (mkStatus false 4))
     = kAOSFailure
  /\ SetAsyncOpenStatus small_file kAOSSuccess <> small_file.
Proof. repeat split; try reflexivity. discriminate. Qed.

(** The guard of [Init]: the calling thread goes to [fInitCondVar->Wait()]
    exactly when [Init] has not run yet, the session is not open and the
    status is in progress. *)
Lemma Init_waits_iff f :
  Init_waits f = Some true
  <-> fInitDone f = false /\ IsOpen f = false
      /\ fAsyncOpenStatus f = kAOSInProgress.
Proof.
  unfold Init_waits. destruct (fInitDone f); [by split; [|intros (? & _)]|].
  destruct (IsOpen f); simpl; [by split; [|intros (_ & ? & _)]|].
  case_bool_decide as Hs; split; try done.
  - intros (_ & _ & ?). contradiction.
Qed.

Lemma Init_goes_on f :
  fInitDone f = false ->
  terminal (fAsyncOpenStatus f) = true \/ IsOpen f = true ->
  Init_waits f = Some false.
Proof.
  unfold Init_waits. intros Hd Hor. rewrite Hd.
  destruct Hor as [Ht|Ho]; [|by rewrite Ho].
  case_bool_decide as Hs; [|by rewrite andb_false_r].
  rewrite Hs in Ht. discriminate.
Qed.

Lemma HandleResponse_terminal f status :
  terminal (fAsyncOpenStatus (TAsyncOpenHandler.HandleResponse f status)) = true.
Proof. unfold TAsyncOpenHandler.HandleResponse. by destruct (IsOK status). Qed.

Lemma Init_test_waits f :
  fInitDone f = false -> IsOpen f = false ->
  fAsyncOpenStatus f = kAOSInProgress ->
  Init_test f = InitBeforeWait.
Proof.
  intros Hd Ho Hs. unfold Init_test.
  by rewrite (proj2 (Init_waits_iff f) (conj Hd (conj Ho Hs))).
Qed.

Lemma init_inv_step f status s s' :
  fInitDone f = false -> IsOpen f = false ->
  fAsyncOpenStatus f = kAOSInProgress ->
  init_inv f status s -> init_step s s' -> init_inv f status s'.
Proof.
  intros Hd Ho Hs Hinv Hstep. unfold init_inv in *.
  destruct Hstep as [g pending|g pending|g pc st open]; simpl in *.
  - destruct pending as [st|]; [|exact Hinv].
    destruct Hinv as (-> & -> & _). split; [done|]. split; [done|].
    intros waited. by rewrite Init_test_waits.
  - destruct pending as [st|]; [|exact Hinv].
    destruct Hinv as (-> & -> & _). by repeat split.
  - apply HandleResponse_terminal.
Qed.

Lemma init_inv_reachable f status s :
  fInitDone f = false -> IsOpen f = false ->
  fAsyncOpenStatus f = kAOSInProgress ->
  rtc init_step (mkInit f InitGuard (Some status)) s -> init_inv f status s.
Proof.
  intros Hd Ho Hs Hrun. revert s Hrun. apply rtc_ind_r.
  - unfold init_inv. simpl. by repeat split.
  - intros s s' _ Hstep Hinv. by eapply init_inv_step.
Qed.

(** A thread inside the wait with no response to come stays there. *)
Lemma init_blocked_stuck f s' : ~ init_step (mkInit f InitBlocked None) s'.
Proof. intros Hstep. inversion Hstep. Qed.

(** C9 at the failing schedule.  [Init] is called on a file whose
    asynchronous open is in progress, and the response to the open is still
    to come.  The calling thread never gets past the wait before the status
    is terminal, and when the response comes while it is inside
    [fInitCondVar->Wait()] it is woken and goes on.  But when the response
    comes between the guard and the wait, the signal finds no thread to
    wake: the thread then enters the wait with the open in a terminal state
    and no response to come, and no step is left to it.  (A call on a file
    whose open is terminal, or whose session is open, goes on at once.) *)
Theorem Init_lost_wake_up f status open :
  fInitDone f = false ->
  IsOpen f = false ->
  fAsyncOpenStatus f = kAOSInProgress ->
  (forall s waited,
     rtc init_step (mkInit f InitGuard (Some status)) s ->
     init_at s = InitGoesOn waited ->
     init_pending s = None
     /\ terminal (fAsyncOpenStatus (init_file s)) = true)
  /\ rtc init_step (mkInit f InitGuard (Some status))
        (mkInit (TAsyncOpenHandler.HandleResponse
                   (set_session f open (fMode f)) status)
                (InitGoesOn true) None)
  /\ (rtc init_step (mkInit f InitGuard (Some status))
         (mkInit (TAsyncOpenHandler.HandleResponse
                    (set_session f open (fMode f)) status)
                 InitBlocked None)
      /\ terminal (fAsyncOpenStatus
                     (TAsyncOpenHandler.HandleResponse
                        (set_session f open (fMode f)) status)) = true
      /\ forall s',
           ~ init_step (mkInit (TAsyncOpenHandler.HandleResponse
                                  (set_session f open (fMode f)) status)
                               InitBlocked None) s')
  /\ (forall g pending s',
        fInitDone g = false ->
        terminal (fAsyncOpenStatus g) = true \/ IsOpen g = true ->
        init_step (mkInit g InitGuard pending) s' ->
        init_at s' = InitGuard \/ init_at s' = InitGoesOn false).
Proof.
  intros Hd Ho Hs.
  assert (Htest : init_step (mkInit f InitGuard (Some status))
                            (mkInit f InitBeforeWait (Some status))).
  { rewrite <- (Init_test_waits f Hd Ho Hs). constructor. }
  split; [|split; [|split]].
  - intros s waited Hrun Hat.
    pose proof (init_inv_reachable f status s Hd Ho Hs Hrun) as Hinv.
    unfold init_inv in Hinv. destruct (init_pending s) as [st|].
    + destruct Hinv as (_ & _ & Hnot). by destruct (Hnot waited).
    + by split.
  - eapply rtc_l; [exact Htest|].
    eapply rtc_l; [apply init_enter_wait|].
    apply rtc_once.
    exact (init_open_response f InitBlocked status open).
  - split; [|split].
    + eapply rtc_l; [exact Htest|].
      eapply rtc_l; [exact (init_open_response f InitBeforeWait status open)|].
      apply rtc_once. apply init_enter_wait.
    + apply HandleResponse_terminal.
    + intros s'. apply init_blocked_stuck.
  - intros g pending s' Hdg Hor Hstep.
    inversion Hstep as [g' p' Hg Hs'|g' p' Hg Hs'|g' pc st o Hg Hs']; subst.
    + right. simpl. unfold Init_test. by rewrite (Init_goes_on g Hdg Hor).
    + left. reflexivity.
Qed.

Lemma Init_lost_wake_up_witness :
  fInitDone opening_file = false
  /\ IsOpen opening_file = false
  /\ fAsyncOpenStatus opening_file = kAOSInProgress
  /\ rtc init_step (mkInit opening_file InitGuard (Some status_ok))
        (mkInit (mkFile false true OF_Read kAOSSuccess 2 false 0 0 0 0 0 0)
                InitBlocked None)
  /\ forall s',
       ~ init_step
           (mkInit (mkFile false true OF_Read kAOSSuccess 2 false 0 0 0 0 0 0)
                   InitBlocked None) s'.
Proof.
  assert (Hd : fInitDone opening_file = false) by reflexivity.
  assert (Ho : IsOpen opening_file = false) by reflexivity.
  assert (Hs : fAsyncOpenStatus opening_file = kAOSInProgress) by reflexivity.
  split; [exact Hd|]. split; [exact Ho|]. split; [exact Hs|].
  pose proof (proj1 (proj2 (proj2
                (Init_lost_wake_up opening_file status_ok true Hd Ho Hs))))
    as (Hrun & _ & Hstuck).
  split; [exact Hrun|exact Hstuck].
Defined.

(** ** Vector read limits *)

(** When the query fails the limits are the built-in ones. *)
Lemma GetVectorReadLimits_query_fails sess f :
  QueryConfig sess = None ->
  (GetVectorReadLimits sess f).1 = false
  /\ fReadvIorMax (GetVectorReadLimits sess f).2 = 2097136
  /\ fReadvIovMax (GetVectorReadLimits sess f).2 = 1024.
Proof.
  intros Hq. unfold GetVectorReadLimits. rewrite Hq.
  by destruct (negb _).
Qed.

(** ** ReOpen *)

Example ParseOpenMode_update : ParseOpenMode "Update" = OF_Update.
Proof. reflexivity. Qed.

Example ParseOpenMode_unknown : ParseOpenMode "append" = OF_None.
Proof. reflexivity. Qed.

Lemma ReOpen_returns_0_or_1 sess f modestr :
  (ReOpen sess f modestr).1 = 0 \/ (ReOpen sess f modestr).1 = 1.
Proof.
  unfold ReOpen. repeat (case_match; simpl; auto).
Qed.

(** C10.  When [ReOpen] is asked for Read or Update, the mode changes, and
    the session fails to open again, the call returns 1 with the session
    closed and [fMode] already set to the new mode.  1 is also what a call
    returns that finds the mode unchanged, and no call returns -1. *)
Theorem ReOpen_failed_reopen_returns_1 sess f modestr :
  ParseOpenMode modestr = OF_Read \/ ParseOpenMode modestr = OF_Update ->
  ParseOpenMode modestr <> fMode f ->
  ~ (ParseOpenMode modestr = OF_Update /\ fMode f = OF_New) ->
  IsOK (Open sess (ParseOpenMode modestr)) = false ->
  (ReOpen sess f modestr).1 = 1
  /\ IsOpen (ReOpen sess f modestr).2 = false
  /\ fMode (ReOpen sess f modestr).2 = ParseOpenMode modestr
  /\ (forall f0, fMode f0 = ParseOpenMode modestr ->
                 ReOpen sess f0 modestr = (1, f0))
  /\ (forall sess' f' modestr', (ReOpen sess' f' modestr').1 <> -1).
Proof.
  intros Hvalid Hchange Hnew Hfail.
  assert (Hguard :
    bool_decide (ParseOpenMode modestr ≠ OF_Read)
    && bool_decide (ParseOpenMode modestr ≠ OF_Update) = false).
  { destruct Hvalid as [-> | ->]; reflexivity. }
  assert (Hre : ReOpen sess f modestr
                = (1, set_session f false (ParseOpenMode modestr))).
  { unfold ReOpen. rewrite Hguard.
    rewrite (bool_decide_eq_false_2 _ Hchange). simpl.
    destruct (bool_decide (ParseOpenMode modestr = OF_Update)) eqn:Hu;
      destruct (bool_decide (fMode f = OF_New)) eqn:Hn; simpl;
      try (rewrite Hfail; reflexivity).
    apply bool_decide_eq_true in Hu, Hn. tauto. }
  rewrite Hre. simpl. repeat split.
  - intros f0 Hsame. unfold ReOpen. rewrite Hguard.
    by rewrite (bool_decide_eq_true_2 _ (eq_sym Hsame)).
  - intros sess' f' modestr'.
    destruct (ReOpen_returns_0_or_1 sess' f' modestr') as [-> | ->]; lia.
Qed.

Lemma ReOpen_failed_reopen_returns_1_witness :
  (ParseOpenMode "update" = OF_Read \/ ParseOpenMode "update" = OF_Update)
  /\ ParseOpenMode "update" <> fMode small_file
  /\ ~ (ParseOpenMode "update" = OF_Update /\ fMode small_file = OF_New)
  /\ IsOK (Open rejecting_session (ParseOpenMode "update")) = false
  /\ (ReOpen rejecting_session small_file "update").1 = 1.
Proof.
  assert (Hvalid :
    ParseOpenMode "update" = OF_Read \/ ParseOpenMode "update" = OF_Update)
    by (right; reflexivity).
  assert (Hchange : ParseOpenMode "update" <> fMode small_file)
    by (vm_compute; discriminate).
  assert (Hnew :
    ~ (ParseOpenMode "update" = OF_Update /\ fMode small_file = OF_New))
    by (intros [_ H]; vm_compute in H; discriminate).
  assert (Hfail : IsOK (Open rejecting_session (ParseOpenMode "update")) = false)
    by reflexivity.
  split; [exact Hvalid|]. split; [exact Hchange|]. split; [exact Hnew|].
  split; [exact Hfail|].
  exact (proj1 (ReOpen_failed_reopen_returns_1 rejecting_session small_file
                  "update" Hvalid Hchange Hnew Hfail)).
Defined.

(** * Further properties *)

(** ** The planner on whole requests *)

Lemma max_size_chunks_Forall (P : ChunkInfo -> Prop) M buffer position n :
  (forall j : nat,
     P (ChunkInfo_new (to_Int_t (position + Z.of_nat j * M)) M buffer)) ->
  Forall P (max_size_chunks M buffer position n).
Proof.
  intros HP. unfold max_size_chunks. apply Forall_fmap, Forall_forall.
  intros j _. apply HP.
Qed.

(** A property of the chunks of every descriptor is a property of every
    chunk of every chunk list, whatever the batch limit. *)
Lemma build_chunk_lists_Forall (P : ChunkInfo -> Prop) M V buffer descs :
  Forall (fun d : Z * Z =>
            forall cs, descriptor_chunks M buffer d.1 d.2 = Some cs ->
                       Forall P cs) descs ->
  forall chunkLists chunks chunkLists' chunks',
    Forall (Forall P) chunkLists -> Forall P chunks ->
    build_chunk_lists M V buffer descs chunkLists chunks
      = Some (chunkLists', chunks') ->
    Forall (Forall P) chunkLists' /\ Forall P chunks'.
Proof.
  induction 1 as [|[position len] rest Hd _ IH];
    intros lists chunks lists' chunks' Hlists Hchunks.
  - simpl. intros [= <- <-]. by split.
  - simpl. destruct (descriptor_chunks M buffer position len) as [cs|] eqn:Hcs;
      [simpl|discriminate].
    assert (Hall : Forall P (chunks ++ cs)).
    { apply Forall_app. split; [exact Hchunks|]. by apply Hd. }
    unfold close_chunk_list.
    destruct (_ =? _).
    + simpl. apply IH; [|constructor].
      apply Forall_app. split; [exact Hlists|]. by constructor.
    + destruct (V <? _).
      * destruct (V <? 0); [discriminate|]. simpl. apply IH.
        -- apply Forall_app. split; [exact Hlists|].
           constructor; [|constructor]. by apply Forall_take.
        -- by apply Forall_drop.
      * simpl. by apply IH.
Qed.

Lemma plan_chunk_lists_Forall (P : ChunkInfo -> Prop) M V buffer descs batches :
  Forall (fun d : Z * Z =>
            forall cs, descriptor_chunks M buffer d.1 d.2 = Some cs ->
                       Forall P cs) descs ->
  plan_chunk_lists M V buffer descs = Some batches ->
  Forall (Forall P) batches.
Proof.
  intros Hd. unfold plan_chunk_lists.
  destruct (build_chunk_lists M V buffer descs [] []) as [[lists chunks]|] eqn:Hb;
    [simpl|discriminate].
  intros [= <-].
  destruct (build_chunk_lists_Forall P M V buffer descs Hd [] [] lists chunks)
    as [Hl Hc]; [constructor|constructor|exact Hb|].
  apply Forall_app. split; [exact Hl|]. by constructor.
Qed.

Lemma descriptor_chunks_bounded M buffer position L cs :
  0 < M <= Int_t_max -> 0 <= L <= Int_t_max ->
  descriptor_chunks M buffer position L = Some cs ->
  Forall (fun c => 0 <= chunk_length c <= M) cs.
Proof.
  unfold Int_t_max, descriptor_chunks. intros HM HL.
  destruct (Z.ltb_spec M L) as [Hlt|Hge].
  - destruct (Z.eqb_spec M 0) as [->|_]; [lia|].
    rewrite Z.rem_mod_nonneg by lia.
    assert (Hmod : 0 <= L mod M < M) by (apply Z.mod_pos_bound; lia).
    intros [= <-]. apply Forall_app. split.
    + apply max_size_chunks_Forall. intros j. simpl.
      rewrite to_uint32_id by lia. lia.
    + constructor; [|constructor]. simpl. rewrite to_uint32_id by lia. lia.
  - intros [= <-]. constructor; [|constructor]. simpl.
    rewrite to_uint32_id by lia. lia.
Qed.

(** X1.  With a positive chunk limit and descriptor lengths that are not
    negative, no chunk of any chunk list is longer than the chunk limit. *)
Theorem plan_chunk_lengths_bounded M V buffer descs batches :
  0 < M <= Int_t_max ->
  Forall (fun d : Z * Z => 0 <= d.2 <= Int_t_max) descs ->
  plan_chunk_lists M V buffer descs = Some batches ->
  Forall (Forall (fun c => 0 <= chunk_length c <= M)) batches.
Proof.
  intros HM Hlen. apply plan_chunk_lists_Forall.
  eapply Forall_impl; [exact Hlen|].
  intros [position L] HL cs. simpl in *. by apply descriptor_chunks_bounded.
Qed.

Lemma plan_chunk_lengths_bounded_witness :
  0 < 4 <= Int_t_max
  /\ Forall (fun d : Z * Z => 0 <= d.2 <= Int_t_max) [(0, 10); (16, 0)]
  /\ plan_chunk_lists 4 2 0 [(0, 10); (16, 0)]
     = Some [[mkChunkInfo 0 4 0; mkChunkInfo 4 4 0];
             [mkChunkInfo 8 2 0; mkChunkInfo 16 0 0]; []]
  /\ Forall (Forall (fun c => 0 <= chunk_length c <= 4))
            [[mkChunkInfo 0 4 0; mkChunkInfo 4 4 0];
             [mkChunkInfo 8 2 0; mkChunkInfo 16 0 0]; []].
Proof.
  assert (HM : 0 < 4 <= Int_t_max) by (unfold Int_t_max; lia).
  assert (Hlen : Forall (fun d : Z * Z => 0 <= d.2 <= Int_t_max)
                        [(0, 10); (16, 0)])
    by (repeat constructor; unfold Int_t_max; simpl; lia).
  assert (Hplan : plan_chunk_lists 4 2 0 [(0, 10); (16, 0)]
     = Some [[mkChunkInfo 0 4 0; mkChunkInfo 4 4 0];
             [mkChunkInfo 8 2 0; mkChunkInfo 16 0 0]; []]) by reflexivity.
  split; [exact HM|]. split; [exact Hlen|]. split; [exact Hplan|].
  exact (plan_chunk_lengths_bounded 4 2 0 _ _ HM Hlen Hplan).
Defined.

Lemma descriptor_chunks_buffer M buffer position L cs :
  descriptor_chunks M buffer position L = Some cs ->
  Forall (fun c => chunk_buffer c = buffer) cs.
Proof.
  unfold descriptor_chunks. destruct (M <? L).
  - destruct (M =? 0); [discriminate|]. intros [= <-].
    apply Forall_app. split; [by apply max_size_chunks_Forall|].
    by repeat constructor.
  - intros [= <-]. by repeat constructor.
Qed.

(** X2.  Every chunk of every chunk list points at the buffer the call was
    given: the chunks of different descriptors, and the chunks one
    descriptor is split into, all carry the same destination pointer. *)
Theorem plan_chunks_share_buffer M V buffer descs batches :
  plan_chunk_lists M V buffer descs = Some batches ->
  Forall (Forall (fun c => chunk_buffer c = buffer)) batches.
Proof.
  apply plan_chunk_lists_Forall, Forall_forall.
  intros [position L] _ cs. apply descriptor_chunks_buffer.
Qed.

Lemma plan_chunks_share_buffer_witness :
  plan_chunk_lists 4 2 77 [(0, 10); (16, 3)]
  = Some [[mkChunkInfo 0 4 77; mkChunkInfo 4 4 77];
          [mkChunkInfo 8 2 77; mkChunkInfo 16 3 77]; []]
  /\ Forall (Forall (fun c => chunk_buffer c = 77))
            [[mkChunkInfo 0 4 77; mkChunkInfo 4 4 77];
             [mkChunkInfo 8 2 77; mkChunkInfo 16 3 77]; []].
Proof.
  assert (Hplan : plan_chunk_lists 4 2 77 [(0, 10); (16, 3)]
    = Some [[mkChunkInfo 0 4 77; mkChunkInfo 4 4 77];
            [mkChunkInfo 8 2 77; mkChunkInfo 16 3 77]; []]) by reflexivity.
  split; [exact Hplan|].
  exact (plan_chunks_share_buffer 4 2 77 _ _ Hplan).
Defined.

Lemma descriptor_chunks_None M buffer position L :
  descriptor_chunks M buffer position L = None <-> M = 0 /\ 0 < L.
Proof.
  unfold descriptor_chunks.
  destruct (Z.ltb_spec M L) as [Hlt|Hge].
  - destruct (Z.eqb_spec M 0) as [->|Hne]; split; try done; lia.
  - split; [done|lia].
Qed.

Lemma close_chunk_list_None V chunkLists chunks :
  close_chunk_list V chunkLists chunks = None <-> V < 0.
Proof.
  unfold close_chunk_list.
  destruct (Z.eqb_spec (Z.of_nat (length chunks)) V) as [Heq|Hne];
    [split; [done|lia]|].
  destruct (Z.ltb_spec V (Z.of_nat (length chunks))) as [Hlt|Hge];
    [|split; [done|lia]].
  destruct (Z.ltb_spec V 0); split; try done; lia.
Qed.

Lemma build_chunk_lists_None M V buffer descs :
  forall chunkLists chunks,
    build_chunk_lists M V buffer descs chunkLists chunks = None
    <-> descs <> []
        /\ (V < 0 \/ (M = 0 /\ Exists (fun d : Z * Z => 0 < d.2) descs)).
Proof.
  induction descs as [|[position L] rest IH]; intros lists chunks.
  - simpl. split; [done|]. by intros [? _].
  - simpl. destruct (descriptor_chunks M buffer position L) as [cs|] eqn:Hcs.
    + assert (Hdef : ~ (M = 0 /\ 0 < L)).
      { intros H.
        pose proof (proj2 (descriptor_chunks_None M buffer position L) H).
        congruence. }
      simpl.
      destruct (close_chunk_list V lists (chunks ++ cs)) as [[l1 c1]|] eqn:Hcl.
      * assert (HV : ~ V < 0).
        { intros H.
          pose proof (proj2 (close_chunk_list_None V lists (chunks ++ cs)) H).
          congruence. }
        simpl. rewrite IH. split.
        -- intros [Hne [?|[HM Hex]]]; [done|]. split; [done|]. right.
           split; [exact HM|]. by apply Exists_cons_tl.
        -- intros [_ [?|[HM Hex]]]; [done|].
           apply Exists_cons in Hex as [Hhd|Htl]; [simpl in Hhd; tauto|].
           split; [by destruct Htl|]. right. by split.
      * simpl. apply close_chunk_list_None in Hcl. split; [|done].
        intros _. split; [done|]. by left.
    + simpl. apply descriptor_chunks_None in Hcs as [HM HL]. split; [|done].
      intros _. split; [done|]. right. split; [exact HM|]. by apply Exists_cons_hd.
Qed.

(** X3.  Planning runs into undefined behaviour exactly when the request has
    a descriptor and either the batch limit is negative (an iterator before
    the beginning of the chunk list) or the chunk limit is zero while some
    descriptor has a positive length (a division by zero). *)
Theorem plan_chunk_lists_undefined_iff M V buffer descs :
  plan_chunk_lists M V buffer descs = None
  <-> descs <> []
      /\ (V < 0 \/ (M = 0 /\ Exists (fun d : Z * Z => 0 < d.2) descs)).
Proof.
  rewrite <- (build_chunk_lists_None M V buffer descs [] []).
  unfold plan_chunk_lists.
  destruct (build_chunk_lists M V buffer descs [] []) as [[lists chunks]|];
    by split.
Qed.

Lemma length_concat_uniform (V : Z) (full : list ChunkList) :
  Forall (fun b : ChunkList => Z.of_nat (length b) = V) full ->
  Z.of_nat (length (concat full)) = V * Z.of_nat (length full).
Proof.
  induction 1 as [|b full Hb _ IH]; simpl; [lia|].
  rewrite length_app. lia.
Qed.

(** X4.  With a batch limit [V] of at least one and no descriptor that yields
    more than [V] chunks, a request of [n] chunks in all is submitted as
    [n / V + 1] chunk lists. *)
Theorem plan_chunk_lists_count M V buffer descs batches all :
  1 <= V ->
  Forall (fun d : Z * Z =>
            forall cs, descriptor_chunks M buffer d.1 d.2 = Some cs ->
                       Z.of_nat (length cs) <= V) descs ->
  plan_chunk_lists M V buffer descs = Some batches ->
  all_chunks M buffer descs = Some all ->
  Z.of_nat (length batches) = Z.of_nat (length all) / V + 1.
Proof.
  intros HV Hsmall. unfold plan_chunk_lists.
  destruct (build_chunk_lists M V buffer descs [] []) as [[lists chunks]|] eqn:Hb;
    [simpl|discriminate].
  intros [= <-] Hall.
  destruct (build_chunk_lists_spec _ _ _ _ HV _ _ _ _ Hb)
    as (closed & all' & Heq & Hfull & Hall' & Hcat & Hlast).
  rewrite Hall in Hall'. injection Hall' as <-. simpl in Heq, Hcat. subst closed.
  specialize (Hlast Hsmall ltac:(simpl; lia)).
  rewrite <- Hcat, !length_app, !Nat2Z.inj_add.
  rewrite (length_concat_uniform V lists Hfull).
  change (Z.of_nat (length [chunks])) with 1. f_equal.
  apply Z.div_unique with (r := Z.of_nat (length chunks)); lia.
Qed.

Lemma plan_chunk_lists_count_witness :
  1 <= 2
  /\ Forall (fun d : Z * Z =>
               forall cs, descriptor_chunks 4 0 d.1 d.2 = Some cs ->
                          Z.of_nat (length cs) <= 2) [(0, 6); (6, 1); (7, 5)]
  /\ plan_chunk_lists 4 2 0 [(0, 6); (6, 1); (7, 5)]
     = Some [[mkChunkInfo 0 4 0; mkChunkInfo 4 2 0];
             [mkChunkInfo 6 1 0; mkChunkInfo 7 4 0];
             [mkChunkInfo 11 1 0]]
  /\ all_chunks 4 0 [(0, 6); (6, 1); (7, 5)]
     = Some [mkChunkInfo 0 4 0; mkChunkInfo 4 2 0; mkChunkInfo 6 1 0;
             mkChunkInfo 7 4 0; mkChunkInfo 11 1 0]
  /\ Z.of_nat 3 = Z.of_nat 5 / 2 + 1.
Proof.
  assert (HV : 1 <= 2) by lia.
  assert (Hsmall :
    Forall (fun d : Z * Z =>
              forall cs, descriptor_chunks 4 0 d.1 d.2 = Some cs ->
                         Z.of_nat (length cs) <= 2) [(0, 6); (6, 1); (7, 5)]).
  { repeat constructor; simpl; intros cs [= <-]; simpl; lia. }
  assert (Hplan : plan_chunk_lists 4 2 0 [(0, 6); (6, 1); (7, 5)]
     = Some [[mkChunkInfo 0 4 0; mkChunkInfo 4 2 0];
             [mkChunkInfo 6 1 0; mkChunkInfo 7 4 0];
             [mkChunkInfo 11 1 0]]) by reflexivity.
  assert (Hall : all_chunks 4 0 [(0, 6); (6, 1); (7, 5)]
     = Some [mkChunkInfo 0 4 0; mkChunkInfo 4 2 0; mkChunkInfo 6 1 0;
             mkChunkInfo 7 4 0; mkChunkInfo 11 1 0]) by reflexivity.
  split; [exact HV|]. split; [exact Hsmall|]. split; [exact Hplan|].
  split; [exact Hall|].
  exact (plan_chunk_lists_count 4 2 0 _ _ _ HV Hsmall Hplan Hall).
Defined.

Lemma descriptor_chunks_sum M buffer position L cs :
  0 < M <= Int_t_max -> 0 <= L <= Int_t_max ->
  descriptor_chunks M buffer position L = Some cs ->
  foldr Z.add 0 (chunk_length <$> cs) = L.
Proof.
  unfold Int_t_max, descriptor_chunks. intros HM HL.
  destruct (Z.ltb_spec M L) as [Hlt|Hge].
  - destruct (Z.eqb_spec M 0) as [->|_]; [lia|].
    rewrite Z.quot_div_nonneg, Z.rem_mod_nonneg by lia.
    assert (Hdiv : 1 <= L / M) by (apply Z.div_le_lower_bound; lia).
    assert (Hmod : 0 <= L mod M < M) by (apply Z.mod_pos_bound; lia).
    assert (Heq : L = M * (L / M) + L mod M) by (apply Z.div_mod; lia).
    intros [= <-].
    rewrite fmap_app, max_size_chunks_lengths, sum_app, sum_replicate. simpl.
    rewrite !to_uint32_id, Z2Nat.id by lia. lia.
  - intros [= <-]. simpl. rewrite to_uint32_id by lia. lia.
Qed.

(** X5.  While the position and the end of a descriptor fit an [Int_t],
    the chunks of the descriptor tile its byte range: the first chunk
    starts at the position, every chunk starts where the chunk before it
    ends, and the lengths add up to the length of the descriptor. *)
Theorem descriptor_chunks_tile M buffer position L cs :
  0 < M <= Int_t_max -> 0 <= L -> 0 <= position ->
  position + L <= Int_t_max ->
  descriptor_chunks M buffer position L = Some cs ->
  (forall i c, cs !! i = Some c ->
     chunk_offset c = position + foldr Z.add 0 (chunk_length <$> take i cs))
  /\ foldr Z.add 0 (chunk_length <$> cs) = L.
Proof.
  intros HM HL Hp Hend Hcs. split.
  - destruct (decide (L = 0)) as [->|Hne].
    + rewrite descriptor_chunks_empty in Hcs. injection Hcs as <-.
      intros i c Hi. apply list_lookup_singleton_Some in Hi as [-> <-]. simpl.
      unfold Int_t_max in *. rewrite to_Int_t_id, to_uint64_id by lia. lia.
    + destruct (descriptor_chunks_offsets M buffer position L)
        as (cs' & Hcs' & Hoff); [done|lia|done|done|].
      rewrite Hcs in Hcs'. by injection Hcs' as <-.
  - apply (descriptor_chunks_sum M buffer position L cs); [done| |done].
    unfold Int_t_max in *. lia.
Qed.

Lemma descriptor_chunks_tile_witness :
  0 < 4 <= Int_t_max /\ 0 <= 10 /\ 0 <= 16 /\ 16 + 10 <= Int_t_max
  /\ descriptor_chunks 4 0 16 10
     = Some [mkChunkInfo 16 4 0; mkChunkInfo 20 4 0; mkChunkInfo 24 2 0]
  /\ foldr Z.add 0
       (chunk_length <$>
          [mkChunkInfo 16 4 0; mkChunkInfo 20 4 0; mkChunkInfo 24 2 0])
     = 10.
Proof.
  assert (HM : 0 < 4 <= Int_t_max) by (unfold Int_t_max; lia).
  assert (HL : 0 <= 10) by lia.
  assert (Hp : 0 <= 16) by lia.
  assert (Hend : 16 + 10 <= Int_t_max) by (unfold Int_t_max; lia).
  assert (Hcs : descriptor_chunks 4 0 16 10
    = Some [mkChunkInfo 16 4 0; mkChunkInfo 20 4 0; mkChunkInfo 24 2 0])
    by reflexivity.
  split; [exact HM|]. split; [exact HL|]. split; [exact Hp|].
  split; [exact Hend|]. split; [exact Hcs|].
  exact (proj2 (descriptor_chunks_tile 4 0 16 10 _ HM HL Hp Hend Hcs)).
Defined.

Lemma all_chunks_cons M buffer position L rest all :
  all_chunks M buffer ((position, L) :: rest) = Some all ->
  exists cs all',
    descriptor_chunks M buffer position L = Some cs
    /\ all_chunks M buffer rest = Some all'
    /\ all = cs ++ all'.
Proof.
  unfold all_chunks. simpl.
  destruct (descriptor_chunks M buffer position L) as [cs|]; [|discriminate].
  simpl.
  destruct (mapM (fun d : Z * Z => descriptor_chunks M buffer d.1 d.2) rest)
    as [css|]; [|discriminate].
  simpl. intros [= <-]. by exists cs, (concat css).
Qed.

Lemma all_chunks_sum M buffer descs :
  0 < M <= Int_t_max ->
  Forall (fun d : Z * Z => 0 <= d.2 <= Int_t_max) descs ->
  forall all,
    all_chunks M buffer descs = Some all ->
    foldr Z.add 0 (chunk_length <$> all) = foldr Z.add 0 descs.*2.
Proof.
  intros HM. induction 1 as [|[position L] rest HL _ IH]; intros all Hall.
  - unfold all_chunks in Hall. simpl in Hall. by injection Hall as <-.
  - apply all_chunks_cons in Hall as (cs & all' & Hcs & Hall' & ->).
    rewrite fmap_app, sum_app, (IH _ Hall').
    by rewrite (descriptor_chunks_sum _ _ _ _ _ HM HL Hcs).
Qed.

(** X6.  With a positive chunk limit, a batch limit of at least one and
    descriptor lengths that are not negative, the lengths of the chunks of
    all chunk lists add up to the lengths of the descriptors: splitting and
    batching neither lose nor repeat a byte of the request. *)
Theorem plan_chunk_lists_bytes M V buffer descs batches :
  0 < M <= Int_t_max -> 1 <= V ->
  Forall (fun d : Z * Z => 0 <= d.2 <= Int_t_max) descs ->
  plan_chunk_lists M V buffer descs = Some batches ->
  foldr Z.add 0 (chunk_length <$> concat batches) = foldr Z.add 0 descs.*2.
Proof.
  intros HM HV Hlen. unfold plan_chunk_lists.
  destruct (build_chunk_lists M V buffer descs [] []) as [[lists chunks]|] eqn:Hb;
    [simpl|discriminate].
  intros [= <-].
  destruct (build_chunk_lists_spec _ _ _ _ HV _ _ _ _ Hb)
    as (closed & all & Heq & _ & Hall & Hcat & _).
  simpl in Heq, Hcat. subst closed.
  rewrite concat_app. simpl. rewrite app_nil_r, Hcat.
  exact (all_chunks_sum M buffer descs HM Hlen all Hall).
Qed.

Lemma plan_chunk_lists_bytes_witness :
  0 < 4 <= Int_t_max /\ 1 <= 2
  /\ Forall (fun d : Z * Z => 0 <= d.2 <= Int_t_max) [(0, 10); (16, 0); (20, 8)]
  /\ plan_chunk_lists 4 2 0 [(0, 10); (16, 0); (20, 8)]
     = Some [[mkChunkInfo 0 4 0; mkChunkInfo 4 4 0];
             [mkChunkInfo 8 2 0; mkChunkInfo 16 0 0];
             [mkChunkInfo 20 4 0; mkChunkInfo 24 4 0];
             [mkChunkInfo 28 0 0]]
  /\ foldr Z.add 0
       (chunk_length <$>
          concat [[mkChunkInfo 0 4 0; mkChunkInfo 4 4 0];
                  [mkChunkInfo 8 2 0; mkChunkInfo 16 0 0];
                  [mkChunkInfo 20 4 0; mkChunkInfo 24 4 0];
                  [mkChunkInfo 28 0 0]])
     = foldr Z.add 0 [(0, 10); (16, 0); (20, 8)].*2.
Proof.
  assert (HM : 0 < 4 <= Int_t_max) by (unfold Int_t_max; lia).
  assert (HV : 1 <= 2) by lia.
  assert (Hlen : Forall (fun d : Z * Z => 0 <= d.2 <= Int_t_max)
                        [(0, 10); (16, 0); (20, 8)])
    by (repeat constructor; unfold Int_t_max; simpl; lia).
  assert (Hplan : plan_chunk_lists 4 2 0 [(0, 10); (16, 0); (20, 8)]
     = Some [[mkChunkInfo 0 4 0; mkChunkInfo 4 4 0];
             [mkChunkInfo 8 2 0; mkChunkInfo 16 0 0];
             [mkChunkInfo 20 4 0; mkChunkInfo 24 4 0];
             [mkChunkInfo 28 0 0]]) by reflexivity.
  split; [exact HM|]. split; [exact HV|]. split; [exact Hlen|].
  split; [exact Hplan|].
  exact (plan_chunk_lists_bytes 4 2 0 _ _ HM HV Hlen Hplan).
Defined.

(** ** Dispatch *)

Lemma dispatch_all_taken_iff s chunkLists :
  forall idx,
    dispatch s idx chunkLists = ((idx + length chunkLists)%nat, None)
    <-> forall i chunks, chunkLists !! i = Some chunks ->
          IsOK (VectorRead s (idx + i) chunks) = true.
Proof.
  induction chunkLists as [|chunks rest IH]; intros idx; simpl.
  - rewrite Nat.add_0_r. split; [|done]. intros _ i c Hc. by rewrite lookup_nil in Hc.
  - split.
    + intros Hd. destruct (dispatch_spec s (chunks :: rest) idx _ _ Hd)
        as (_ & Hacc & _).
      intros i c Hc. apply Hacc; [|exact Hc].
      apply lookup_lt_Some in Hc. simpl in *. lia.
    + intros Hacc. pose proof (Hacc 0%nat chunks eq_refl) as H0.
      rewrite Nat.add_0_r in H0. rewrite H0. simpl.
      replace (idx + S (length rest))%nat with (S idx + length rest)%nat by lia.
      apply IH. intros i c Hc.
      replace (S idx + i)%nat with (idx + S i)%nat by lia. by apply Hacc.
Qed.

(** X7.  [ReadBuffers] submits the chunk lists in order and stops at the
    first one the session rejects: what it submitted is a prefix of the
    planned chunk lists, every submission before the last was taken, and
    either all lists were taken and the call waited once for each, or the
    last submission is the rejected one, its status is the one reported, and
    the call returns [kTRUE] without a wait. *)
Theorem ReadBuffers_stops_at_first_rejection s f buffer descs chunkLists
    ret trace f' :
  IsUseable f = true ->
  plan_chunk_lists (fReadvIorMax f) (fReadvIovMax f) buffer
                   (shift_positions (fArchiveOffset f) descs)
    = Some chunkLists ->
  ReadBuffers s f buffer descs = Some (ret, trace, f') ->
  rb_submitted trace = take (length (rb_submitted trace)) chunkLists
  /\ (forall i chunks, (i < rb_in_flight trace)%nat ->
        chunkLists !! i = Some chunks ->
        IsOK (VectorRead s i chunks) = true)
  /\ ((rb_submitted trace = chunkLists
       /\ rb_in_flight trace = length chunkLists
       /\ rb_waits trace = length chunkLists)
      \/ (exists chunks st,
            length (rb_submitted trace) = S (rb_in_flight trace)
            /\ chunkLists !! rb_in_flight trace = Some chunks
            /\ VectorRead s (rb_in_flight trace) chunks = st
            /\ IsOK st = false
            /\ rb_error trace = Some st
            /\ rb_waits trace = 0%nat
            /\ ret = true)).
Proof.
  intros Huse Hplan. unfold ReadBuffers. rewrite Huse. cbn [negb].
  rewrite Hplan. simpl.
  destruct (dispatch s 0 chunkLists) as [n r] eqn:Hd.
  destruct (dispatch_spec s chunkLists 0%nat n r Hd) as (Hn & Hacc & Hr).
  simpl in Hn, Hacc. destruct r as [st|].
  - intros [= <- <- <-]. simpl.
    destruct Hr as (chunks & Hc & Hst & Hbad). rewrite Nat.sub_0_r in Hc.
    assert (Hlt : (n < length chunkLists)%nat) by (by eapply lookup_lt_Some).
    split; [by rewrite length_take, Nat.min_l by lia|].
    split; [exact Hacc|]. right. exists chunks, st.
    rewrite length_take, Nat.min_l by lia. by repeat split.
  - subst n.
    destruct (check_errors _ 0 []) as [deleted|k st deleted|k];
      [|discriminate|discriminate].
    destruct (gPerfStats s).
    + destruct (shift_positions _ _) as [|d rest]; [discriminate|]. simpl.
      intros [= <- <- <-]. simpl. split; [by rewrite take_ge|].
      split; [exact Hacc|]. by left.
    + simpl. intros [= <- <- <-]. simpl. split; [by rewrite take_ge|].
      split; [exact Hacc|]. by left.
Qed.

Lemma ReadBuffers_stops_at_first_rejection_witness :
  IsUseable small_file = true
  /\ plan_chunk_lists (fReadvIorMax small_file) (fReadvIovMax small_file) 0
       (shift_positions (fArchiveOffset small_file) [(0, 1); (1, 1)])
     = Some [[mkChunkInfo 0 1 0]; [mkChunkInfo 1 1 0]; []]
  /\ ReadBuffers rejecting_session small_file 0 [(0, 1); (1, 1)]
     = Some (true,
             mkTrace [[mkChunkInfo 0 1 0]; [mkChunkInfo 1 1 0]] 1 0
                     (Some (mkStatus false 7)) [] false,
             small_file)
  /\ [[mkChunkInfo 0 1 0]; [mkChunkInfo 1 1 0]]
     = take 2 [[mkChunkInfo 0 1 0]; [mkChunkInfo 1 1 0]; []].
Proof.
  assert (Huse : IsUseable small_file = true) by reflexivity.
  assert (Hplan :
    plan_chunk_lists (fReadvIorMax small_file) (fReadvIovMax small_file) 0
      (shift_positions (fArchiveOffset small_file) [(0, 1); (1, 1)])
    = Some [[mkChunkInfo 0 1 0]; [mkChunkInfo 1 1 0]; []]) by reflexivity.
  assert (Hrun :
    ReadBuffers rejecting_session small_file 0 [(0, 1); (1, 1)]
    = Some (true,
            mkTrace [[mkChunkInfo 0 1 0]; [mkChunkInfo 1 1 0]] 1 0
                    (Some (mkStatus false 7)) [] false,
            small_file)) by reflexivity.
  split; [exact Huse|]. split; [exact Hplan|]. split; [exact Hrun|].
  exact (proj1 (ReadBuffers_stops_at_first_rejection rejecting_session
                  small_file 0 [(0, 1); (1, 1)] _ _ _ _ Huse Hplan Hrun)).
Defined.

(** ** The join, from any state *)

(** X8.  The join cannot get stuck: from every state a call can reach
    after its submissions, whatever handlers have run and whatever waits the
    calling thread has got through, the remaining handlers can run and the
    wait loop can be completed. *)
Theorem join_never_stuck resp st :
  rtc join_step (join_init resp) st ->
  exists statuses, rtc join_step st (mkJoin statuses 0 [] 0).
Proof.
  intros Hrun.
  destruct (join_inv_reachable _ _ Hrun) as (Hlen & Hcount & Hfl & _).
  destruct st as [statuses sem in_flight waits]. simpl in *.
  destruct (deliver_run in_flight in_flight statuses sem waits)
    as (statuses' & _ & Hrun'); [done| |].
  { intros i s Hin. rewrite Hlen. eapply lookup_lt_Some. by apply Hfl. }
  exists statuses'. etrans; [exact Hrun'|].
  rewrite <- Hcount. apply wait_run.
Qed.

Lemma join_never_stuck_witness :
  rtc join_step (join_init [status_ok; mkStatus false 3])
      (mkJoin [None; Some (mkStatus false 3)] 0 [(0%nat, status_ok)] 1)
  /\ exists statuses,
       rtc join_step
           (mkJoin [None; Some (mkStatus false 3)] 0 [(0%nat, status_ok)] 1)
           (mkJoin statuses 0 [] 0).
Proof.
  assert (Hrun :
    rtc join_step (join_init [status_ok; mkStatus false 3])
        (mkJoin [None; Some (mkStatus false 3)] 0 [(0%nat, status_ok)] 1)).
  { eapply rtc_l.
    - apply (step_response [None; None] 0 [(0%nat, status_ok)] 1
               (mkStatus false 3) [] 2 [None; Some (mkStatus false 3)] 1).
      reflexivity.
    - eapply rtc_l; [|apply rtc_refl].
      by apply (step_wait [None; Some (mkStatus false 3)] 1
                  [(0%nat, status_ok)] 1 0). }
  split; [exact Hrun|].
  exact (join_never_stuck [status_ok; mkStatus false 3] _ Hrun).
Defined.

(** ** The outcome of ReadBuffers *)

Lemma scan_responses (resp : list XRootDStatus) :
  (Forall (fun st => IsOK st = true) resp
   /\ check_errors (Some <$> resp) 0 [] = ScanOK (seq 0 (length resp)))
  \/ (exists k st,
        lowest_failure resp k st
        /\ check_errors (Some <$> resp) 0 [] = ScanFailed k st (seq 0 k)).
Proof.
  destruct (decide (Forall (fun st => IsOK st = true) resp)) as [Hok|Hbad].
  - left. split; [exact Hok|]. by rewrite check_errors_all_ok.
  - right. apply not_Forall_Exists in Hbad; [|apply _].
    destruct (lowest_failure_exists resp) as (k & st & Hlow).
    { eapply Exists_impl; [exact Hbad|]. intros st. simpl.
      by destruct (IsOK st). }
    exists k, st. split; [exact Hlow|].
    by rewrite (check_errors_first_failure resp k st 0 [] Hlow).
Qed.

(** X9.  On a usable file, for a request the planner is defined on (and with
    [gPerfStats] unset or at least one descriptor), [ReadBuffers] returns
    [kFALSE] exactly when the session takes every chunk list and the
    response to every one of them is OK: one rejected submission or one
    failed response fails the whole call. *)
Theorem ReadBuffers_succeeds_iff s f buffer descs chunkLists :
  IsUseable f = true ->
  plan_chunk_lists (fReadvIorMax f) (fReadvIovMax f) buffer
                   (shift_positions (fArchiveOffset f) descs)
    = Some chunkLists ->
  gPerfStats s = false \/ descs <> [] ->
  (exists trace f', ReadBuffers s f buffer descs = Some (false, trace, f'))
  <-> ((forall i chunks, chunkLists !! i = Some chunks ->
          IsOK (VectorRead s i chunks) = true)
       /\ (forall i, (i < length chunkLists)%nat ->
             IsOK (readv_response s i) = true)).
Proof.
  intros Huse Hplan Hperf. unfold ReadBuffers. rewrite Huse. cbn [negb].
  rewrite Hplan. simpl.
  destruct (dispatch s 0 chunkLists) as [n r] eqn:Hd.
  pose proof (dispatch_all_taken_iff s chunkLists 0%nat) as Hiff. simpl in Hiff.
  destruct (dispatch_spec s chunkLists 0%nat n r Hd) as (_ & _ & Hr).
  destruct r as [st|].
  - split; [by intros (? & ? & [=])|]. intros [Hacc _].
    apply Hiff in Hacc. congruence.
  - simpl in Hr. subst n.
    change ((fun i : nat => Some (readv_response s i)) <$> seq 0 (length chunkLists))
      with ((Some ∘ readv_response s) <$> seq 0 (length chunkLists)).
    rewrite list_fmap_compose.
    set (resp := readv_response s <$> seq 0 (length chunkLists)).
    assert (Hresp : Forall (fun st => IsOK st = true) resp
                    <-> forall i, (i < length chunkLists)%nat ->
                          IsOK (readv_response s i) = true).
    { unfold resp. rewrite Forall_fmap, Forall_forall. split.
      - intros H i Hi. apply (H i). apply elem_of_seq. lia.
      - intros H i Hi. apply elem_of_seq in Hi. apply H. lia. }
    destruct (scan_responses resp) as [[Hok ->]|(k & st & Hlow & ->)].
    + split; [intros _; split; [by apply Hiff|by apply Hresp]|]. intros _.
      destruct (gPerfStats s) eqn:Hg; [|simpl; by eexists _, _].
      destruct Hperf as [?|Hne]; [done|].
      destruct (shift_positions (fArchiveOffset f) descs) as [|d rest] eqn:Hs.
      * exfalso. apply Hne, length_zero_iff_nil.
        by rewrite <- (shift_positions_length (fArchiveOffset f)), Hs.
      * simpl. by eexists _, _.
    + split; [by intros (? & ? & [=])|]. intros [_ Hall].
      apply Hresp in Hall. destruct Hlow as (Hk & Hbad & _).
      rewrite Forall_lookup in Hall. specialize (Hall k st Hk). simpl in Hall.
      congruence.
Qed.

Lemma ReadBuffers_succeeds_iff_witness :
  IsUseable small_file = true
  /\ plan_chunk_lists (fReadvIorMax small_file) (fReadvIovMax small_file) 0
       (shift_positions (fArchiveOffset small_file) [(0, 1); (1, 1)])
     = Some [[mkChunkInfo 0 1 0]; [mkChunkInfo 1 1 0]; []]
  /\ (gPerfStats good_session = false \/ [(0, 1); (1, 1)] <> [])
  /\ ((exists trace f',
         ReadBuffers good_session small_file 0 [(0, 1); (1, 1)]
         = Some (false, trace, f'))
      <-> ((forall i chunks,
              [[mkChunkInfo 0 1 0]; [mkChunkInfo 1 1 0]; []] !! i = Some chunks ->
              IsOK (VectorRead good_session i chunks) = true)
           /\ (forall i, (i < 3)%nat ->
                 IsOK (readv_response good_session i) = true))).
Proof.
  assert (Huse : IsUseable small_file = true) by reflexivity.
  assert (Hplan :
    plan_chunk_lists (fReadvIorMax small_file) (fReadvIovMax small_file) 0
      (shift_positions (fArchiveOffset small_file) [(0, 1); (1, 1)])
    = Some [[mkChunkInfo 0 1 0]; [mkChunkInfo 1 1 0]; []]) by reflexivity.
  assert (Hperf : gPerfStats good_session = false \/ [(0, 1); (1, 1)] <> [])
    by (left; reflexivity).
  split; [exact Huse|]. split; [exact Hplan|]. split; [exact Hperf|].
  exact (ReadBuffers_succeeds_iff good_session small_file 0 [(0, 1); (1, 1)]
           _ Huse Hplan Hperf).
Defined.

(** X10.  A call of [ReadBuffers] that returns [kTRUE] (the file is not
    usable, or a submission is rejected) leaves the file object as it was.
    A call that returns [kFALSE] adds one to the read calls, an [Int_t] that
    wraps at its maximum, and adds to the bytes read the sum of the
    requested lengths, as the [Int_t] total carries it, whatever the
    session says it read; with [gPerfStats] set the offset becomes the first
    position (archive offset included); nothing else changes. *)
Theorem ReadBuffers_effect s f buffer descs ret trace f' :
  ReadBuffers s f buffer descs = Some (ret, trace, f') ->
  if ret then f' = f
  else fBytesRead f' = fBytesRead f + to_Int_t (foldr Z.add 0 descs.*2)
       /\ fReadCalls f' = to_Int_t (fReadCalls f + 1)
       /\ fOffset f'
          = match descs with
            | d :: _ =>
                if gPerfStats s then d.1 + fArchiveOffset f else fOffset f
            | [] => fOffset f
            end
       /\ fZombie f' = fZombie f /\ fIsOpen f' = fIsOpen f
       /\ fMode f' = fMode f /\ fAsyncOpenStatus f' = fAsyncOpenStatus f
       /\ fInitSignals f' = fInitSignals f /\ fInitDone f' = fInitDone f
       /\ fReadvIorMax f' = fReadvIorMax f /\ fReadvIovMax f' = fReadvIovMax f
       /\ fArchiveOffset f' = fArchiveOffset f.
Proof.
  unfold ReadBuffers. destruct (IsUseable f); cbn [negb].
  2: { by intros [= <- <- <-]. }
  rewrite shift_positions_lengths.
  destruct (plan_chunk_lists _ _ _ _) as [chunkLists|]; [simpl|discriminate].
  destruct (dispatch s 0 chunkLists) as [n [st|]].
  { by intros [= <- <- <-]. }
  destruct (check_errors _ 0 []) as [deleted|k st deleted|k];
    [|discriminate|discriminate].
  unfold shift_positions.
  destruct (gPerfStats s).
  - destruct (Z.eqb_spec (fArchiveOffset f) 0) as [Ha|Ha];
      destruct descs as [|d rest]; try discriminate; simpl;
      intros [= <- <- <-]; simpl; rewrite ?Ha, ?Z.add_0_r; by repeat split.
  - simpl. intros [= <- <- <-]. simpl. destruct descs; by repeat split.
Qed.

Lemma ReadBuffers_effect_witness :
  ReadBuffers good_session small_file 0 [(0, 1); (1, 1)]
  = Some (false,
          mkTrace [[mkChunkInfo 0 1 0]; [mkChunkInfo 1 1 0]; []] 3 3 None
                  [0; 1; 2]%nat true,
          mkFile false true OF_Read kAOSSuccess 1 true 4 1 0 0 2 1)
  /\ fBytesRead (mkFile false true OF_Read kAOSSuccess 1 true 4 1 0 0 2 1)
     = fBytesRead small_file + to_Int_t (foldr Z.add 0 [(0, 1); (1, 1)].*2).
Proof.
  assert (Hrun :
    ReadBuffers good_session small_file 0 [(0, 1); (1, 1)]
    = Some (false,
            mkTrace [[mkChunkInfo 0 1 0]; [mkChunkInfo 1 1 0]; []] 3 3 None
                    [0; 1; 2]%nat true,
            mkFile false true OF_Read kAOSSuccess 1 true 4 1 0 0 2 1))
    by reflexivity.
  split; [exact Hrun|].
  exact (proj1 (ReadBuffers_effect good_session small_file 0 [(0, 1); (1, 1)]
                  _ _ _ Hrun)).
Defined.

(** ** ReOpen, on all its paths *)

(** X11.  [ReOpen] returns 0 exactly when the mode asked for is Read or
    Update, differs from the mode of the file (Update on a file opened as
    New counting as no difference) and the session opens again; the file is
    then open in the new mode and nothing else of it has changed. *)
Theorem ReOpen_returns_0_iff s f modestr :
  ((ReOpen s f modestr).1 = 0
   <-> ((ParseOpenMode modestr = OF_Read \/ ParseOpenMode modestr = OF_Update)
        /\ ParseOpenMode modestr <> fMode f
        /\ ~ (ParseOpenMode modestr = OF_Update /\ fMode f = OF_New)
        /\ IsOK (Open s (ParseOpenMode modestr)) = true))
  /\ ((ReOpen s f modestr).1 = 0 ->
      (ReOpen s f modestr).2 = set_session f true (ParseOpenMode modestr)).
Proof.
  unfold ReOpen.
  destruct (decide (ParseOpenMode modestr = OF_Read)) as [Hr|Hr];
    destruct (decide (ParseOpenMode modestr = OF_Update)) as [Hu|Hu];
    try congruence.
  - rewrite (bool_decide_eq_false_2 _ (fun H : _ ≠ _ => H Hr)). cbn [andb].
    rewrite (bool_decide_eq_false_2 _ Hu). cbn [andb orb].
    destruct (decide (ParseOpenMode modestr = fMode f)) as [Hm|Hm].
    + rewrite (bool_decide_eq_true_2 _ Hm). simpl. split; [|done].
      split; [done|]. tauto.
    + rewrite (bool_decide_eq_false_2 _ Hm). simpl.
      destruct (IsOK (Open s (ParseOpenMode modestr))) eqn:Hok; simpl.
      * split; [|done]. split; [|done]. intros _. repeat split; auto.
        intros [? _]. done.
      * split; [|done]. split; [done|]. intros (_ & _ & _ & ?). done.
  - rewrite (bool_decide_eq_true_2 _ Hr), (bool_decide_eq_false_2 _ (fun H : _ ≠ _ => H Hu)).
    cbn [andb].
    destruct (decide (ParseOpenMode modestr = fMode f)) as [Hm|Hm].
    + rewrite (bool_decide_eq_true_2 _ Hm). simpl. split; [|done].
      split; [done|]. tauto.
    + rewrite (bool_decide_eq_false_2 _ Hm), (bool_decide_eq_true_2 _ Hu).
      cbn [orb andb].
      destruct (decide (fMode f = OF_New)) as [Hn|Hn].
      * rewrite (bool_decide_eq_true_2 _ Hn). simpl. split; [|done].
        split; [done|]. tauto.
      * rewrite (bool_decide_eq_false_2 _ Hn). simpl.
        destruct (IsOK (Open s (ParseOpenMode modestr))) eqn:Hok; simpl.
        -- split; [|done]. split; [|done]. intros _. repeat split; auto.
           intros [_ ?]. done.
        -- split; [|done]. split; [done|]. intros (_ & _ & _ & ?). done.
  - rewrite (bool_decide_eq_true_2 _ Hr), (bool_decide_eq_true_2 _ Hu). simpl.
    split; [|done]. split; [done|]. tauto.
Qed.

Lemma ReOpen_no_op s f modestr :
  (ParseOpenMode modestr <> OF_Read /\ ParseOpenMode modestr <> OF_Update)
  \/ ParseOpenMode modestr = fMode f
  \/ (ParseOpenMode modestr = OF_Update /\ fMode f = OF_New) ->
  ReOpen s f modestr = (1, f).
Proof.
  unfold ReOpen. intros [[Hr Hu]|[Hm|[Hu Hn]]].
  - by rewrite (bool_decide_eq_true_2 _ Hr), (bool_decide_eq_true_2 _ Hu).
  - rewrite (bool_decide_eq_true_2 _ Hm). cbn [orb]. by destruct (_ && _).
  - rewrite (bool_decide_eq_true_2 _ Hu), (bool_decide_eq_true_2 _ Hn).
    cbn [andb]. rewrite orb_true_r. by destruct (_ && _).
Qed.

Lemma ReOpen_changes s f modestr :
  ~ ((ParseOpenMode modestr <> OF_Read /\ ParseOpenMode modestr <> OF_Update)
     \/ ParseOpenMode modestr = fMode f
     \/ (ParseOpenMode modestr = OF_Update /\ fMode f = OF_New)) ->
  ReOpen s f modestr
  = if IsOK (Open s (ParseOpenMode modestr))
    then (0, set_session f true (ParseOpenMode modestr))
    else (1, set_session f false (ParseOpenMode modestr)).
Proof.
  intros Hno. unfold ReOpen.
  assert (Hm : ParseOpenMode modestr <> fMode f) by tauto.
  assert (Hnew : ~ (ParseOpenMode modestr = OF_Update /\ fMode f = OF_New))
    by tauto.
  assert (Hv : ~ (ParseOpenMode modestr <> OF_Read
                  /\ ParseOpenMode modestr <> OF_Update)) by tauto.
  rewrite <- (bool_decide_and _ _), (bool_decide_eq_false_2 _ Hv).
  rewrite <- (bool_decide_and _ _), (bool_decide_eq_false_2 _ Hm),
    (bool_decide_eq_false_2 _ Hnew).
  simpl. by destruct (IsOK _).
Qed.

(** X12.  [ReOpen] returns 1 and leaves the file object as it was, whatever
    the session would answer, exactly when the mode asked for is neither
    Read nor Update, or is the mode the file has, or is Update on a file
    opened as New: in these cases the session is neither closed nor opened. *)
Theorem ReOpen_mode_unchanged_iff f modestr :
  (forall s, ReOpen s f modestr = (1, f))
  <-> ((ParseOpenMode modestr <> OF_Read /\ ParseOpenMode modestr <> OF_Update)
       \/ ParseOpenMode modestr = fMode f
       \/ (ParseOpenMode modestr = OF_Update /\ fMode f = OF_New)).
Proof.
  split.
  - intros Hall.
    destruct (decide ((ParseOpenMode modestr <> OF_Read
                       /\ ParseOpenMode modestr <> OF_Update)
                      \/ ParseOpenMode modestr = fMode f
                      \/ (ParseOpenMode modestr = OF_Update
                          /\ fMode f = OF_New))) as [Hno|Hch]; [exact Hno|].
    specialize (Hall good_session).
    rewrite (ReOpen_changes good_session f modestr Hch) in Hall.
    simpl in Hall. discriminate.
  - intros Hno s. by apply ReOpen_no_op.
Qed.

(** X13.  [ReOpen] does not try twice: a second call with the same mode
    string, whatever the session would answer now, returns 1 and changes
    nothing.  After a reopen that failed, the file so stays closed in the
    new mode. *)
Theorem ReOpen_again s s' f modestr :
  ReOpen s' (ReOpen s f modestr).2 modestr = (1, (ReOpen s f modestr).2).
Proof.
  destruct (decide ((ParseOpenMode modestr <> OF_Read
                     /\ ParseOpenMode modestr <> OF_Update)
                    \/ ParseOpenMode modestr = fMode f
                    \/ (ParseOpenMode modestr = OF_Update
                        /\ fMode f = OF_New))) as [Hno|Hch].
  - rewrite (ReOpen_no_op s f modestr Hno). simpl. by apply ReOpen_no_op.
  - rewrite (ReOpen_changes s f modestr Hch).
    destruct (IsOK _); simpl; apply ReOpen_no_op; right; left; reflexivity.
Qed.

(** ** ParseOpenMode *)

Lemma toupper_idemp c : toupper (toupper c) = toupper c.
Proof.
  destruct c as [[] [] [] [] [] [] [] []]; vm_compute; reflexivity.
Qed.

Lemma ToUpper_idemp s : ToUpper (ToUpper s) = ToUpper s.
Proof.
  induction s as [|c s IH]; simpl; [reflexivity|].
  by rewrite toupper_idemp, IH.
Qed.

(** X14.  [ParseOpenMode] does not look at the case of the letters: a mode
    string and its upper-case form are parsed to the same flag. *)
Theorem ParseOpenMode_ToUpper modestr :
  ParseOpenMode (ToUpper modestr) = ParseOpenMode modestr.
Proof. unfold ParseOpenMode. by rewrite ToUpper_idemp. Qed.

(** ** Vector read limits *)

Lemma read_limit_tokens_zeros zeros lim :
  Forall (fun t => t = 0) zeros ->
  lim.1 = 0 \/ lim.2 = 0 ->
  fold_left read_limit_token zeros lim = lim.
Proof.
  intros Hz. revert lim. induction Hz as [|t zeros -> _ IH]; intros [a b] Hl;
    [reflexivity|].
  simpl. unfold read_limit_token at 2. simpl.
  destruct (Z.eqb_spec a 0) as [->|Ha].
  - apply IH. by left.
  - destruct Hl as [?|Hb]; [done|]. simpl in Hb. subst b. simpl.
    apply IH. by right.
Qed.

Lemma read_limit_tokens_done rest a b :
  a <> 0 -> b <> 0 -> fold_left read_limit_token rest (a, b) = (a, b).
Proof.
  intros Ha Hb. induction rest as [|t rest IH]; [reflexivity|].
  simpl. unfold read_limit_token at 2. simpl.
  destruct (Z.eqb_spec a 0); [done|]. by destruct (Z.eqb_spec b 0).
Qed.

Lemma read_limit_tokens_first zeros a rest :
  Forall (fun t => t = 0) zeros -> a <> 0 ->
  fold_left read_limit_token (zeros ++ a :: rest) (0, 0)
  = fold_left read_limit_token rest (a, 0).
Proof.
  intros Hz Ha. rewrite fold_left_app.
  rewrite (read_limit_tokens_zeros zeros (0, 0)) by (done || by left).
  reflexivity.
Qed.

Lemma read_limit_tokens_second zeros a b rest :
  Forall (fun t => t = 0) zeros -> a <> 0 -> b <> 0 ->
  fold_left read_limit_token (zeros ++ b :: rest) (a, 0) = (a, b).
Proof.
  intros Hz Ha Hb.
  rewrite fold_left_app.
  rewrite (read_limit_tokens_zeros zeros (a, 0)) by (done || by right).
  simpl. unfold read_limit_token at 2. simpl.
  destruct (Z.eqb_spec a 0); [done|]. by apply read_limit_tokens_done.
Qed.

(** X15.  When the file is usable and the query is answered,
    [GetVectorReadLimits] returns [kTRUE]; the chunk limit is the first
    token of the reply that is not zero and the batch limit the first token
    after it that is not zero, and whatever follows is ignored. *)
Theorem GetVectorReadLimits_tokens s f zeros a zeros' b rest :
  IsUseable f = true ->
  QueryConfig s = Some (zeros ++ a :: zeros' ++ b :: rest) ->
  Forall (fun t => t = 0) zeros -> a <> 0 ->
  Forall (fun t => t = 0) zeros' -> b <> 0 ->
  GetVectorReadLimits s f = (true, set_limits f a b).
Proof.
  intros Huse Hq Hz Ha Hz' Hb. unfold GetVectorReadLimits.
  assert (Huse' : IsUseable (set_limits f default_ior_max default_iov_max) = true)
    by exact Huse.
  rewrite Huse', Hq. cbn [negb].
  rewrite read_limit_tokens_first, read_limit_tokens_second by done.
  reflexivity.
Qed.

Lemma GetVectorReadLimits_tokens_witness :
  IsUseable small_file = true
  /\ QueryConfig (mkSession (fun _ _ => status_ok) (fun _ => status_ok)
                            (fun _ => status_ok) (Some [0; 65536; 0; 512; 9])
                            false)
     = Some ([0] ++ 65536 :: [0] ++ 512 :: [9])
  /\ Forall (fun t => t = 0) [0] /\ 65536 <> 0
  /\ Forall (fun t => t = 0) [0] /\ 512 <> 0
  /\ GetVectorReadLimits
       (mkSession (fun _ _ => status_ok) (fun _ => status_ok)
                  (fun _ => status_ok) (Some [0; 65536; 0; 512; 9]) false)
       small_file
     = (true, set_limits small_file 65536 512).
Proof.
  assert (Huse : IsUseable small_file = true) by reflexivity.
  assert (Hq :
    QueryConfig (mkSession (fun _ _ => status_ok) (fun _ => status_ok)
                           (fun _ => status_ok) (Some [0; 65536; 0; 512; 9])
                           false)
    = Some ([0] ++ 65536 :: [0] ++ 512 :: [9])) by reflexivity.
  assert (Hz : Forall (fun t => t = 0) [0]) by (repeat constructor).
  assert (Ha : 65536 <> 0) by discriminate.
  assert (Hb : 512 <> 0) by discriminate.
  split; [exact Huse|]. split; [exact Hq|]. split; [exact Hz|].
  split; [exact Ha|]. split; [exact Hz|]. split; [exact Hb|].
  exact (GetVectorReadLimits_tokens _ small_file [0] 65536 [0] 512 [9]
           Huse Hq Hz Ha Hz Hb).
Defined.

(** X16.  [GetVectorReadLimits] returns [kFALSE] exactly when the file is
    not usable or the query fails, and the file then carries the built-in
    limits 2097136 and 1024; in every case it changes nothing but the two
    limits. *)
Theorem GetVectorReadLimits_failure s f :
  ((GetVectorReadLimits s f).1 = false
   <-> IsUseable f = false \/ QueryConfig s = None)
  /\ ((GetVectorReadLimits s f).1 = false ->
      (GetVectorReadLimits s f).2 = set_limits f 2097136 1024)
  /\ (GetVectorReadLimits s f).2
     = set_limits f (fReadvIorMax (GetVectorReadLimits s f).2)
                    (fReadvIovMax (GetVectorReadLimits s f).2).
Proof.
  unfold GetVectorReadLimits.
  change (IsUseable (set_limits f default_ior_max default_iov_max))
    with (IsUseable f).
  destruct (IsUseable f); cbn [negb].
  - destruct (QueryConfig s) as [tokens|]; simpl.
    + split; [split; [done|by intros [|]]|]. by split.
    + split; [split; [by right|done]|]. by split.
  - simpl. split; [split; [by left|done]|]. by split.
Qed.

(** X17.  A reply without a token that is not zero (an empty reply, or one
    [Atoi] reads as zeros) is taken as limits of zero, and the call still
    returns [kTRUE]; on the file it leaves, every [ReadBuffers] request with
    a descriptor of positive length divides by zero. *)
Theorem GetVectorReadLimits_zero_then_ReadBuffers s f tokens buffer descs :
  IsUseable f = true ->
  QueryConfig s = Some tokens ->
  Forall (fun t => t = 0) tokens ->
  Exists (fun d : Z * Z => 0 < d.2) descs ->
  GetVectorReadLimits s f = (true, set_limits f 0 0)
  /\ ReadBuffers s (set_limits f 0 0) buffer descs = None.
Proof.
  intros Huse Hq Hz Hex. split.
  - unfold GetVectorReadLimits.
    assert (Huse' : IsUseable (set_limits f default_ior_max default_iov_max) = true)
      by exact Huse.
    rewrite Huse', Hq. cbn [negb].
    by rewrite (read_limit_tokens_zeros tokens (0, 0)) by (done || by left).
  - unfold ReadBuffers.
    assert (Huse' : IsUseable (set_limits f 0 0) = true) by exact Huse.
    rewrite Huse'. cbn [negb]. simpl fReadvIorMax. simpl fReadvIovMax.
    simpl fArchiveOffset.
    set (descs' := shift_positions (fArchiveOffset f) descs).
    assert (Hex' : Exists (fun d : Z * Z => 0 < d.2) descs').
    { unfold descs', shift_positions. destruct (_ =? 0); [exact Hex|].
      apply Exists_fmap. eapply Exists_impl; [exact Hex|]. by intros [p l]. }
    assert (Hnone : plan_chunk_lists 0 0 buffer descs' = None).
    { unfold plan_chunk_lists.
      rewrite (proj2 (build_chunk_lists_None 0 0 buffer descs' [] [])); [done|].
      split; [|by right]. intros Hnil. rewrite Hnil in Hex'.
      by apply Exists_nil in Hex'. }
    by rewrite Hnone.
Qed.

Lemma GetVectorReadLimits_zero_then_ReadBuffers_witness :
  IsUseable small_file = true
  /\ QueryConfig (mkSession (fun _ _ => status_ok) (fun _ => status_ok)
                            (fun _ => status_ok) (Some []) false)
     = Some []
  /\ Forall (fun t => t = 0) []
  /\ Exists (fun d : Z * Z => 0 < d.2) [(0, 1)]
  /\ ReadBuffers (mkSession (fun _ _ => status_ok) (fun _ => status_ok)
                            (fun _ => status_ok) (Some []) false)
                 (set_limits small_file 0 0) 0 [(0, 1)]
     = None.
Proof.
  assert (Huse : IsUseable small_file = true) by reflexivity.
  assert (Hq :
    QueryConfig (mkSession (fun _ _ => status_ok) (fun _ => status_ok)
                           (fun _ => status_ok) (Some []) false)
    = Some []) by reflexivity.
  assert (Hz : Forall (fun t : Z => t = 0) []) by constructor.
  assert (Hex : Exists (fun d : Z * Z => 0 < d.2) [(0, 1)])
    by (constructor; simpl; lia).
  split; [exact Huse|]. split; [exact Hq|]. split; [exact Hz|].
  split; [exact Hex|].
  exact (proj2 (GetVectorReadLimits_zero_then_ReadBuffers _ small_file [] 0
                  [(0, 1)] Huse Hq Hz Hex)).
Defined.

(** ** Single reads and writes *)

Lemma sum_nonneg (ls : list Z) :
  Forall (fun l => 0 <= l <= Int_t_max) ls -> 0 <= foldr Z.add 0 ls.
Proof. induction 1 as [|l ls [Hl _] _ IH]; simpl; lia. Qed.

Lemma to_Int_t_range z : - 2 ^ 31 <= to_Int_t z < 2 ^ 31.
Proof.
  unfold to_Int_t.
  pose proof (Z.mod_pos_bound (z + 2 ^ 31) (2 ^ 32) ltac:(lia)). lia.
Qed.

Lemma to_Int_t_add a b : to_Int_t (to_Int_t a + b) = to_Int_t (a + b).
Proof.
  unfold to_Int_t. f_equal.
  replace ((a + 2 ^ 31) mod 2 ^ 32 - 2 ^ 31 + b + 2 ^ 31)
    with ((a + 2 ^ 31) mod 2 ^ 32 + b) by lia.
  rewrite Zplus_mod_idemp_l. f_equal. lia.
Qed.

(** X18.  Without a read cache and with a session that answers every [Read]
    with OK, a run of [ReadBuffer(buffer, length)] calls reads the file
    piece after piece: every call returns [kFALSE], the call for the
    [i]-th length asks the session for that length at the offset the file
    had at first plus the lengths before it, the offset ends up advanced by
    all the lengths (whatever the session says it read), the read calls,
    an [Int_t], grow by the number of calls and wrap at the maximum, and
    the bytes read of the file and of the class grow by the same amount. *)
Theorem ReadBuffer_each_sequential base r buffer lengths :
  (forall f b l, ReadBufferViaCache base f b l = (0, f)) ->
  (forall o sz b, IsOK (Read r o sz b).1 = true) ->
  Forall (fun l => 0 <= l <= Int_t_max) lengths ->
  forall f c rets calls f' c',
    IsUseable f = true ->
    0 <= fOffset f -> fOffset f + foldr Z.add 0 lengths < 2 ^ 63 ->
    - 2 ^ 31 <= fReadCalls f < 2 ^ 31 ->
    ReadBuffer_each base r buffer lengths f c = (rets, calls, f', c') ->
    rets = replicate (length lengths) false
    /\ (forall i l, lengths !! i = Some l ->
          calls !! i
          = Some (Some (fOffset f + foldr Z.add 0 (take i lengths), l)))
    /\ fOffset f' = fOffset f + foldr Z.add 0 lengths
    /\ fReadCalls f' = to_Int_t (fReadCalls f + Z.of_nat (length lengths))
    /\ fBytesRead f' - fBytesRead f = fgBytesRead c' - fgBytesRead c.
Proof.
  intros Hcache Hok. induction 1 as [|l lengths Hl Hls IH];
    intros f c rets calls f' c' Huse Hoff Hend Hcalls0.
  - simpl. intros [= <- <- <- <-]. repeat split; try lia.
    + intros i l Hi. by rewrite lookup_nil in Hi.
    + rewrite Z.add_0_r. symmetry. by apply to_Int_t_id.
  - pose proof (sum_nonneg lengths Hls) as Hsum. unfold Int_t_max in Hl.
    simpl in Hend. simpl. unfold ReadBuffer_here, ReadBuffer.
    rewrite Huse, Hcache. cbn [negb Z.eqb].
    destruct (Read r (to_uint64 (fOffset f)) (to_uint32 l) buffer)
      as [st bytesRead] eqn:Hr.
    pose proof (Hok (to_uint64 (fOffset f)) (to_uint32 l) buffer) as Hst.
    rewrite Hr in Hst. simpl in Hst. rewrite Hst. cbn [negb].
    match goal with
    | |- context [ReadBuffer_each base r buffer lengths ?g ?d] =>
        destruct (ReadBuffer_each base r buffer lengths g d)
          as [[[rets1 calls1] f1] c1] eqn:Heach;
        specialize (IH g d rets1 calls1 f1 c1)
    end.
    simpl in IH. intros [= <- <- <- <-].
    destruct IH as (Hrets & Hcalls & Hoff' & Hcount & Hbytes);
      [exact Huse|lia|lia|apply to_Int_t_range|exact Heach|].
    rewrite to_uint64_id, to_uint32_id by lia.
    split; [simpl; by rewrite Hrets|]. split.
    { intros [|i] l' Hi; simpl in Hi.
      - injection Hi as <-. simpl. by rewrite Z.add_0_r.
      - simpl. rewrite (Hcalls i l' Hi). do 3 f_equal. lia. }
    split; [lia|]. split; [|simpl in Hbytes; lia].
    rewrite Hcount, to_Int_t_add. f_equal. simpl length. lia.
Qed.

Lemma ReadBuffer_each_sequential_witness :
  (forall f b l, ReadBufferViaCache plain_base f b l = (0, f))
  /\ (forall o sz b, IsOK (Read short_remote o sz b).1 = true)
  /\ Forall (fun l => 0 <= l <= Int_t_max) [10; 4]
  /\ IsUseable small_file = true
  /\ 0 <= fOffset small_file
  /\ fOffset small_file + foldr Z.add 0 [10; 4] < 2 ^ 63
  /\ - 2 ^ 31 <= fReadCalls small_file < 2 ^ 31
  /\ ReadBuffer_each plain_base short_remote 0 [10; 4] small_file zero_counters
     = ([false; false], [Some (0, 10); Some (10, 4)],
        mkFile false true OF_Read kAOSSuccess 1 true 4 1 0 14 7 2,
        mkCounters 0 7 2 0)
  /\ fOffset (mkFile false true OF_Read kAOSSuccess 1 true 4 1 0 14 7 2)
     = fOffset small_file + foldr Z.add 0 [10; 4].
Proof.
  assert (Hcache : forall f b l, ReadBufferViaCache plain_base f b l = (0, f))
    by (intros; reflexivity).
  assert (Hok : forall o sz b, IsOK (Read short_remote o sz b).1 = true)
    by (intros; reflexivity).
  assert (Hl : Forall (fun l => 0 <= l <= Int_t_max) [10; 4])
    by (repeat constructor; unfold Int_t_max; lia).
  assert (Huse : IsUseable small_file = true) by reflexivity.
  assert (Hoff : 0 <= fOffset small_file) by (simpl; lia).
  assert (Hend : fOffset small_file + foldr Z.add 0 [10; 4] < 2 ^ 63)
    by (simpl; lia).
  assert (Hcalls : - 2 ^ 31 <= fReadCalls small_file < 2 ^ 31)
    by (simpl; lia).
  assert (Hrun :
    ReadBuffer_each plain_base short_remote 0 [10; 4] small_file zero_counters
    = ([false; false], [Some (0, 10); Some (10, 4)],
       mkFile false true OF_Read kAOSSuccess 1 true 4 1 0 14 7 2,
       mkCounters 0 7 2 0)) by reflexivity.
  split; [exact Hcache|]. split; [exact Hok|]. split; [exact Hl|].
  split; [exact Huse|]. split; [exact Hoff|]. split; [exact Hend|].
  split; [exact Hcalls|]. split; [exact Hrun|].
  exact (proj1 (proj2 (proj2
           (ReadBuffer_each_sequential plain_base short_remote 0 [10; 4]
              Hcache Hok Hl small_file zero_counters _ _ _ _
              Huse Hoff Hend Hcalls Hrun)))).
Defined.

(** X19.  Without a write cache, whatever the session answers and whatever
    the lengths are, a run of [WriteBuffer] calls keeps the offset and the
    write counters in step: the offset, the bytes written of the file and
    the bytes written of the class all advance by the lengths of the writes
    that returned [kFALSE], a write that fails moves none of them, and the
    read counters stay as they are. *)
Theorem WriteBuffer_each_in_step base r buffer lengths :
  (forall f b l, WriteBufferViaCache base f b l = (0, f)) ->
  forall f c rets calls f' c',
    WriteBuffer_each base r buffer lengths f c = (rets, calls, f', c') ->
    fOffset f' - fOffset f
    = foldr (fun (lr : Z * bool) (acc : Z) => if lr.2 then acc else lr.1 + acc) 0
            (zip lengths rets)
    /\ fBytesWrite c' - fBytesWrite c = fOffset f' - fOffset f
    /\ fgBytesWrite c' - fgBytesWrite c = fOffset f' - fOffset f
    /\ fBytesRead f' = fBytesRead f /\ fReadCalls f' = fReadCalls f
    /\ fgBytesRead c' = fgBytesRead c /\ fgReadCalls c' = fgReadCalls c.
Proof.
  intros Hcache. induction lengths as [|l lengths IH];
    intros f c rets calls f' c'.
  - simpl. intros [= <- <- <- <-]. repeat split; lia.
  - simpl.
    destruct (WriteBuffer base r f c buffer l) as [[[ret f1] c1] call] eqn:Hw.
    destruct (WriteBuffer_each base r buffer lengths f1 c1)
      as [[[rets1 calls1] f2] c2] eqn:Heach.
    intros [= <- <- <- <-].
    destruct (IH _ _ _ _ _ _ Heach) as (Hoff & Hbw & Hgw & Hbr & Hrc & Hgr & Hgc).
    assert (Hstep :
      (ret = true /\ f1 = f /\ c1 = c)
      \/ (ret = false /\ fOffset f1 = fOffset f + l
          /\ fBytesWrite c1 = fBytesWrite c + l
          /\ fgBytesWrite c1 = fgBytesWrite c + l
          /\ fBytesRead f1 = fBytesRead f /\ fReadCalls f1 = fReadCalls f
          /\ fgBytesRead c1 = fgBytesRead c /\ fgReadCalls c1 = fgReadCalls c)).
    { revert Hw. unfold WriteBuffer. destruct (IsUseable f); cbn [negb].
      - rewrite Hcache. cbn [negb Z.eqb]. destruct (IsOK (Write _ _ _ _)); cbn [negb].
        + intros [= <- <- <- <-]. right. by repeat split.
        + intros [= <- <- <- <-]. by left.
      - intros [= <- <- <- <-]. by left. }
    simpl. destruct Hstep as [(-> & -> & ->)|(-> & H1 & H2 & H3 & H4 & H5 & H6 & H7)];
      simpl; repeat split; lia || congruence.
Qed.

Lemma WriteBuffer_each_in_step_witness :
  (forall f b l, WriteBufferViaCache plain_base f b l = (0, f))
  /\ WriteBuffer_each plain_base short_remote 0 [6; 5; 3] small_file zero_counters
     = ([false; false; true], [Some (0, 6); Some (6, 5); Some (11, 3)],
        mkFile false true OF_Read kAOSSuccess 1 true 4 1 0 11 0 0,
        mkCounters 11 0 0 11)
  /\ fOffset (mkFile false true OF_Read kAOSSuccess 1 true 4 1 0 11 0 0)
     - fOffset small_file
     = foldr (fun (lr : Z * bool) (acc : Z) => if lr.2 then acc else lr.1 + acc) 0
             (zip [6; 5; 3] [false; false; true]).
Proof.
  assert (Hcache : forall f b l, WriteBufferViaCache plain_base f b l = (0, f))
    by (intros; reflexivity).
  assert (Hrun :
    WriteBuffer_each plain_base short_remote 0 [6; 5; 3] small_file zero_counters
    = ([false; false; true], [Some (0, 6); Some (6, 5); Some (11, 3)],
       mkFile false true OF_Read kAOSSuccess 1 true 4 1 0 11 0 0,
       mkCounters 11 0 0 11)) by reflexivity.
  split; [exact Hcache|]. split; [exact Hrun|].
  exact (proj1 (WriteBuffer_each_in_step plain_base short_remote 0 [6; 5; 3]
                  Hcache small_file zero_counters _ _ _ _ Hrun)).
Defined.

(** ** Zombies *)

Lemma not_useable_fails_fast base s r f c buffer position length descs :
  IsUseable f = false ->
  ReadBuffers s f buffer descs = Some (true, mkTrace [] 0 0 None [] false, f)
  /\ ReadBuffer base r f c buffer position length = (true, f, c, None)
  /\ WriteBuffer base r f c buffer length = (true, f, c, None)
  /\ GetSize r f = (-1, None)
  /\ GetVectorReadLimits s f = (false, set_limits f 2097136 1024).
Proof.
  intros Huse.
  unfold ReadBuffers, ReadBuffer, WriteBuffer, GetSize, GetVectorReadLimits.
  change (IsUseable (set_limits f default_ior_max default_iov_max))
    with (IsUseable f).
  by rewrite Huse.
Qed.

(** X20.  When the open fails in the constructor, at once for an
    asynchronous open or for the synchronous one, the object is a zombie,
    and from then on [ReadBuffers], [ReadBuffer], [WriteBuffer], [GetSize]
    and [GetVectorReadLimits] fail without a call to the session and
    without a change to the object (but for the built-in limits the last
    one installs). *)
Theorem failed_open_fails_fast base s r f0 mode (parallelopen : bool) :
  (if parallelopen then IsOK (OpenAsync r (ParseOpenMode mode))
   else IsOK (Open s (ParseOpenMode mode))) = false ->
  fZombie (TNetXNGFile_new base s r f0 mode parallelopen) = true
  /\ forall s' r' c buffer position length descs,
       ReadBuffers s' (TNetXNGFile_new base s r f0 mode parallelopen) buffer descs
       = Some (true, mkTrace [] 0 0 None [] false,
               TNetXNGFile_new base s r f0 mode parallelopen)
       /\ ReadBuffer base r' (TNetXNGFile_new base s r f0 mode parallelopen) c
                     buffer position length
          = (true, TNetXNGFile_new base s r f0 mode parallelopen, c, None)
       /\ WriteBuffer base r' (TNetXNGFile_new base s r f0 mode parallelopen) c
                      buffer length
          = (true, TNetXNGFile_new base s r f0 mode parallelopen, c, None)
       /\ GetSize r' (TNetXNGFile_new base s r f0 mode parallelopen) = (-1, None)
       /\ GetVectorReadLimits s' (TNetXNGFile_new base s r f0 mode parallelopen)
          = (false,
             set_limits (TNetXNGFile_new base s r f0 mode parallelopen)
                        2097136 1024).
Proof.
  intros Hfail.
  assert (Hz : fZombie (TNetXNGFile_new base s r f0 mode parallelopen) = true).
  { unfold TNetXNGFile_new. destruct parallelopen; simpl in *;
      by rewrite Hfail. }
  split; [exact Hz|]. intros s' r' c buffer position length descs.
  apply not_useable_fails_fast. unfold IsUseable. by rewrite Hz.
Qed.

Lemma failed_open_fails_fast_witness :
  (if true then IsOK (OpenAsync short_remote (ParseOpenMode "READ"))
   else IsOK (Open good_session (ParseOpenMode "READ"))) = false
  /\ fZombie (TNetXNGFile_new plain_base good_session short_remote small_file
                              "READ" true) = true.
Proof.
  assert (Hfail :
    (if true then IsOK (OpenAsync short_remote (ParseOpenMode "READ"))
     else IsOK (Open good_session (ParseOpenMode "READ"))) = false)
    by reflexivity.
  split; [exact Hfail|].
  exact (proj1 (failed_open_fails_fast plain_base good_session short_remote
                  small_file "READ" true Hfail)).
Defined.

(** X21.  Nothing brings a zombie back.  On a zombie, [ReOpen] keeps the
    zombie bit even when it opens the session again and returns 0, so the
    file stays unusable; the open handler, [SetAsyncOpenStatus],
    [GetVectorReadLimits] and [Close] keep the bit as well (for [Close],
    when [TFile::Close] keeps it), and the reads and writes leave the
    object as it is. *)
Theorem zombie_is_permanent base s r f :
  fZombie f = true ->
  (forall modestr,
     fZombie (ReOpen s f modestr).2 = true
     /\ IsUseable (ReOpen s f modestr).2 = false)
  /\ (forall status, fZombie (TAsyncOpenHandler.HandleResponse f status) = true)
  /\ (forall status, fZombie (SetAsyncOpenStatus f status) = true)
  /\ fZombie (GetVectorReadLimits s f).2 = true
  /\ (fZombie (TFileClose base f) = true -> fZombie (Close base r f) = true)
  /\ (forall buffer descs r',
        ReadBuffers s f buffer descs = Some r' -> r'.2 = f)
  /\ (forall c buffer position length,
        (ReadBuffer base r f c buffer position length).1.1.2 = f)
  /\ (forall c buffer length,
        (WriteBuffer base r f c buffer length).1.1.2 = f).
Proof.
  intros Hz.
  assert (Huse : IsUseable f = false) by (unfold IsUseable; by rewrite Hz).
  split.
  { intros modestr.
    assert (H : fZombie (ReOpen s f modestr).2 = true).
    { unfold ReOpen. repeat (case_match; simpl; try exact Hz). }
    split; [exact H|]. unfold IsUseable. by rewrite H. }
  split.
  { intros status. unfold TAsyncOpenHandler.HandleResponse.
    by destruct (IsOK status). }
  split; [done|]. split.
  { unfold GetVectorReadLimits. repeat (case_match; simpl; try exact Hz). }
  split.
  { intros Hc. unfold Close. by destruct (negb _). }
  split.
  { intros buffer descs r' Hr.
    destruct (not_useable_fails_fast base s r f zero_counters buffer 0 0 descs Huse)
      as (Hrb & _). rewrite Hrb in Hr. by injection Hr as <-. }
  split.
  - intros c buffer position length.
    destruct (not_useable_fails_fast base s r f c buffer position length [] Huse)
      as (_ & -> & _). reflexivity.
  - intros c buffer length.
    destruct (not_useable_fails_fast base s r f c buffer 0 length [] Huse)
      as (_ & _ & -> & _). reflexivity.
Qed.

Lemma zombie_is_permanent_witness :
  fZombie (MakeZombie small_file) = true
  /\ (ReOpen good_session (MakeZombie small_file) "UPDATE").1 = 0
  /\ IsUseable (ReOpen good_session (MakeZombie small_file) "UPDATE").2 = false.
Proof.
  assert (Hz : fZombie (MakeZombie small_file) = true) by reflexivity.
  split; [exact Hz|]. split; [reflexivity|].
  exact (proj2 (proj1 (zombie_is_permanent plain_base good_session short_remote
                         (MakeZombie small_file) Hz) "UPDATE")).
Defined.

(** X22.  After [Close] the file is not usable, whatever the session
    answered and whatever [TFile::Close] did: [ReadBuffers], [ReadBuffer],
    [WriteBuffer] and [GetSize] then fail without a call to the session. *)
Theorem closed_file_fails_fast base s r f :
  IsUseable (Close base r f) = false
  /\ forall r' c buffer position length descs,
       ReadBuffers s (Close base r f) buffer descs
       = Some (true, mkTrace [] 0 0 None [] false, Close base r f)
       /\ ReadBuffer base r' (Close base r f) c buffer position length
          = (true, Close base r f, c, None)
       /\ WriteBuffer base r' (Close base r f) c buffer length
          = (true, Close base r f, c, None)
       /\ GetSize r' (Close base r f) = (-1, None).
Proof.
  assert (Huse : IsUseable (Close base r f) = false).
  { unfold Close, IsUseable.
    destruct (negb (IsOK (CloseSession r))); simpl; [reflexivity|].
    by destruct (fZombie (TFileClose base f)). }
  split; [exact Huse|]. intros r' c buffer position length descs.
  destruct (not_useable_fails_fast base s r' (Close base r f) c buffer position
              length descs Huse) as (H1 & H2 & H3 & H4 & _).
  by repeat split.
Qed.

(** ** SetEnv *)

Lemma apply_row_frame Atoi home gEnv st row var :
  row_target row <> Some var ->
  environ (apply_row Atoi home gEnv st row) !! var = environ st !! var.
Proof.
  destruct row as [res guard key|res guard key| |res dflt var' guarded]; simpl.
  - intros _. by destruct (_ && _).
  - intros _. by destruct (_ && _).
  - intros Hne. apply lookup_insert_ne. congruence.
  - intros Hne. destruct (_ && _); [|done]. simpl.
    apply lookup_insert_ne. congruence.
Qed.

Lemma run_rows_cons Atoi home gEnv row rows st :
  run_rows Atoi home gEnv (row :: rows) st
  = run_rows Atoi home gEnv rows (apply_row Atoi home gEnv st row).
Proof. reflexivity. Qed.

Lemma run_rows_frame Atoi home gEnv rows :
  forall st var,
    Some var ∉ row_target <$> rows ->
    environ (run_rows Atoi home gEnv rows st) !! var = environ st !! var.
Proof.
  induction rows as [|row rows IH]; intros st var Hnot; [reflexivity|].
  rewrite fmap_cons, not_elem_of_cons in Hnot. destruct Hnot as [Hne Hnot].
  rewrite run_rows_cons, IH by exact Hnot.
  apply apply_row_frame. congruence.
Qed.

(** What a block does to the variable it may set depends on that variable
    alone. *)
Lemma apply_row_target Atoi home gEnv st1 st2 row var :
  row_target row = Some var ->
  environ st1 !! var = environ st2 !! var ->
  environ (apply_row Atoi home gEnv st1 row) !! var
  = environ (apply_row Atoi home gEnv st2 row) !! var.
Proof.
  destruct row as [res guard key|res guard key| |res dflt var' guarded]; simpl;
    try discriminate.
  - intros [= <-] _. by rewrite !lookup_insert_eq.
  - intros [= ->] Heq. unfold unset_or_empty. rewrite Heq.
    destruct (_ && _); simpl; [by rewrite !lookup_insert_eq|exact Heq].
Qed.

Lemma run_rows_target Atoi home gEnv rows :
  NoDup (omap row_target rows) ->
  forall st row var,
    row ∈ rows -> row_target row = Some var ->
    environ (run_rows Atoi home gEnv rows st) !! var
    = environ (apply_row Atoi home gEnv st row) !! var.
Proof.
  induction rows as [|r rows IH]; intros Hnd st row var Hin Ht.
  - by apply elem_of_nil in Hin.
  - rewrite run_rows_cons. destruct (row_target r) as [t|] eqn:Hr.
    + simpl in Hnd. rewrite Hr in Hnd. apply NoDup_cons in Hnd as [Hnot Hnd].
      apply elem_of_cons in Hin as [->|Hin].
      * assert (t = var) as -> by congruence.
        apply run_rows_frame. intros Hel.
        apply list_elem_of_fmap in Hel as (r' & Hr' & Hin').
        apply Hnot, list_elem_of_omap. exists r'. by split.
      * rewrite (IH Hnd _ row var Hin Ht).
        apply apply_row_target; [exact Ht|].
        apply apply_row_frame. intros Heq.
        apply Hnot. assert (t = var) as -> by congruence.
        apply list_elem_of_omap. exists row. by split.
    + simpl in Hnd. rewrite Hr in Hnd.
      apply elem_of_cons in Hin as [->|Hin]; [congruence|].
      rewrite (IH Hnd _ row var Hin Ht).
      apply apply_row_target; [exact Ht|].
      apply apply_row_frame. congruence.
Qed.

Lemma SetEnv_rows_targets_NoDup : NoDup (omap row_target SetEnv_rows).
Proof. apply (bool_decide_unpack _). by vm_compute. Qed.

(** X23.  What the process has set wins over the resources for the six
    guarded security variables, and the resources win for the rest: after
    [SetEnv], a guarded variable that was set and not empty is as it was; a
    guarded variable that was unset or empty, and any of the ten other
    variables, has the value of its resource (or the default) when that is
    not empty and is as it was otherwise; [XrdSecNETRC] is the netrc file of
    the home directory whatever it was; and no other variable of the process
    is touched. *)
Theorem SetEnv_environ Atoi home gEnv st :
  (forall resource dflt var guarded,
     RowSetenv resource dflt var guarded ∈ SetEnv_rows ->
     environ (SetEnv Atoi home gEnv st) !! var
     = if nonempty (GetValue gEnv resource dflt)
          && (negb guarded || unset_or_empty (environ st) var)
       then Some (GetValue gEnv resource dflt)
       else environ st !! var)
  /\ environ (SetEnv Atoi home gEnv st) !! "XrdSecNETRC"%string
     = Some (String.app home "/.rootnetrc")
  /\ (forall var,
        Some var ∉ row_target <$> SetEnv_rows ->
        environ (SetEnv Atoi home gEnv st) !! var = environ st !! var).
Proof.
  split; [|split].
  - intros resource dflt var guarded Hin. unfold SetEnv.
    rewrite (run_rows_target Atoi home gEnv SetEnv_rows SetEnv_rows_targets_NoDup
               st _ var Hin eq_refl).
    simpl. destruct (_ && _); simpl; [by rewrite lookup_insert_eq|done].
  - unfold SetEnv.
    rewrite (run_rows_target Atoi home gEnv SetEnv_rows SetEnv_rows_targets_NoDup
               st RowNetrc "XrdSecNETRC"%string); [|set_solver|done].
    simpl. by rewrite lookup_insert_eq.
  - intros var Hnot. by apply run_rows_frame.
Qed.

Lemma unset_or_empty_ext env1 env2 var :
  env1 !! var = env2 !! var ->
  unset_or_empty env1 var = unset_or_empty env2 var.
Proof. unfold unset_or_empty. by intros ->. Qed.

Lemma apply_row_puts Atoi home gEnv st env0 row :
  (forall g, row_guard row = Some g -> environ st !! g = env0 !! g) ->
  xrd_puts (apply_row Atoi home gEnv st row)
  = xrd_puts st ++ option_list (row_put Atoi gEnv env0 row).
Proof.
  destruct row as [res guard key|res guard key| |res dflt var guarded]; simpl;
    intros Hg.
  - rewrite (unset_or_empty_ext _ env0 guard) by (by apply Hg).
    destruct (_ && _); simpl; [done|by rewrite app_nil_r].
  - rewrite (unset_or_empty_ext _ env0 guard) by (by apply Hg).
    destruct (_ && _); simpl; [done|by rewrite app_nil_r].
  - by rewrite app_nil_r.
  - destruct (_ && _); simpl; by rewrite app_nil_r.
Qed.

(** When no block sets a variable that a block for the client looks at,
    the calls on the client are those the blocks make with the variables the
    process had at first. *)
Lemma run_rows_puts Atoi home gEnv env0 rows :
  (forall g, Some g ∈ row_guard <$> rows -> Some g ∉ row_target <$> rows) ->
  forall st,
    (forall g, Some g ∈ row_guard <$> rows -> environ st !! g = env0 !! g) ->
    xrd_puts (run_rows Atoi home gEnv rows st)
    = xrd_puts st ++ omap (row_put Atoi gEnv env0) rows.
Proof.
  induction rows as [|row rows IH]; intros Hdisj st Hagree.
  - simpl. by rewrite app_nil_r.
  - rewrite run_rows_cons, IH.
    + rewrite (apply_row_puts Atoi home gEnv st env0 row).
      * rewrite <- app_assoc. f_equal. simpl.
        by destruct (row_put Atoi gEnv env0 row).
      * intros g Hg. apply Hagree. rewrite fmap_cons, Hg. by left.
    + intros g Hg Ht. apply (Hdisj g); rewrite fmap_cons; by right.
    + intros g Hg. rewrite apply_row_frame.
      * apply Hagree. rewrite fmap_cons. by right.
      * intros Ht. apply (Hdisj g); rewrite fmap_cons; [by right|].
        rewrite Ht. by left.
Qed.

Lemma SetEnv_rows_disjoint :
  forall g, Some g ∈ row_guard <$> SetEnv_rows ->
            Some g ∉ row_target <$> SetEnv_rows.
Proof.
  intros g Hg Ht.
  assert (Hall : Forall (fun og => og ∉ row_target <$> SetEnv_rows \/ og = None)
                        (row_guard <$> SetEnv_rows)).
  { apply (bool_decide_unpack _). by vm_compute. }
  rewrite Forall_forall in Hall. destruct (Hall _ Hg) as [?|?]; done.
Qed.

Lemma SetEnv_puts_eq Atoi home gEnv st :
  xrd_puts (SetEnv Atoi home gEnv st)
  = xrd_puts st ++ omap (row_put Atoi gEnv (environ st)) SetEnv_rows.
Proof.
  unfold SetEnv. apply run_rows_puts; [apply SetEnv_rows_disjoint|done].
Qed.

(** X24.  The settings for the client follow the variables the process had
    when [SetEnv] began: a new call is made on the client exactly for the
    blocks whose resource is not empty and whose variable [XRD_...] is unset
    or empty, and the calls there were stay in front.  A variable [XRD_...]
    that is set and not empty so keeps its block from overriding it. *)
Theorem SetEnv_puts Atoi home gEnv st :
  exists new,
    xrd_puts (SetEnv Atoi home gEnv st) = xrd_puts st ++ new
    /\ forall p,
         p ∈ new
         <-> exists resource guard key,
               nonempty (GetValue gEnv resource "") = true
               /\ unset_or_empty (environ st) guard = true
               /\ ((RowPutInt resource guard key ∈ SetEnv_rows
                    /\ p = PutInt key (Atoi (GetValue gEnv resource "")))
                   \/ (RowPutString resource guard key ∈ SetEnv_rows
                       /\ p = PutString key (GetValue gEnv resource ""))).
Proof.
  exists (omap (row_put Atoi gEnv (environ st)) SetEnv_rows).
  split; [apply SetEnv_puts_eq|]. intros p. rewrite list_elem_of_omap. split.
  - intros (row & Hin & Hp).
    destruct row as [res guard key|res guard key| |res dflt var guarded];
      simpl in Hp; try discriminate.
    + destruct (nonempty _) eqn:Hn; [|discriminate].
      destruct (unset_or_empty _ _) eqn:Hu; [|discriminate].
      simpl in Hp. injection Hp as <-. exists res, guard, key. auto.
    + destruct (nonempty _) eqn:Hn; [|discriminate].
      destruct (unset_or_empty _ _) eqn:Hu; [|discriminate].
      simpl in Hp. injection Hp as <-. exists res, guard, key. auto.
  - intros (res & guard & key & Hn & Hu & [[Hin ->]|[Hin ->]]).
    + exists (RowPutInt res guard key). split; [exact Hin|].
      simpl. by rewrite Hn, Hu.
    + exists (RowPutString res guard key). split; [exact Hin|].
      simpl. by rewrite Hn, Hu.
Qed.

(** X25.  The resource [NetXNG.ConnectionRetry] never reaches the setting
    of its name: no call [SetEnv] makes on the client has the key
    [ConnectionRetry], and when the resource is set (and
    [XRD_CONNECTIONRETRY] is unset or empty) its value is put under the key
    [RequestTimeout]. *)
Theorem SetEnv_ConnectionRetry Atoi home gEnv st :
  (forall p, p ∈ xrd_puts (SetEnv Atoi home gEnv st) ->
             p ∈ xrd_puts st \/ put_key p <> "ConnectionRetry"%string)
  /\ (forall val,
        gEnv !! "NetXNG.ConnectionRetry"%string = Some val ->
        val <> ""%string ->
        unset_or_empty (environ st) "XRD_CONNECTIONRETRY" = true ->
        PutInt "RequestTimeout" (Atoi val) ∈ xrd_puts (SetEnv Atoi home gEnv st)).
Proof.
  rewrite SetEnv_puts_eq. split.
  - intros p Hp. apply elem_of_app in Hp as [?|Hp]; [by left|]. right.
    apply list_elem_of_omap in Hp as (row & Hin & Hp).
    assert (Hkeys :
      Forall (fun row =>
                match row with
                | RowPutInt _ _ key | RowPutString _ _ key =>
                    key <> "ConnectionRetry"%string
                | _ => True
                end) SetEnv_rows).
    { repeat constructor; discriminate. }
    rewrite Forall_forall in Hkeys. specialize (Hkeys row Hin).
    destruct row as [res guard key|res guard key| |res dflt var guarded];
      simpl in Hp; try discriminate;
      destruct (_ && _); try discriminate; by injection Hp as <-.
  - intros val Hval Hne Hu. apply elem_of_app. right.
    apply list_elem_of_omap.
    exists (RowPutInt "NetXNG.ConnectionRetry" "XRD_CONNECTIONRETRY"
                      "RequestTimeout").
    split; [set_solver|]. simpl. unfold GetValue, nonempty.
    by rewrite Hval, Hu, (bool_decide_eq_false_2 _ Hne).
Qed.

Lemma apply_row_again Atoi home gEnv st st1 row var :
  row_target row = Some var ->
  environ st1 !! var = environ (apply_row Atoi home gEnv st row) !! var ->
  environ (apply_row Atoi home gEnv st1 row) !! var = environ st1 !! var.
Proof.
  destruct row as [res guard key|res guard key| |res dflt var' guarded]; simpl;
    try discriminate.
  - intros [= <-]. rewrite !lookup_insert_eq. by intros ->.
  - intros [= ->].
    destruct (nonempty (GetValue gEnv res dflt)
              && (negb guarded || unset_or_empty (environ st) var)) eqn:Hc;
      simpl.
    + intros H1. rewrite lookup_insert_eq in H1.
      destruct (nonempty (GetValue gEnv res dflt)
                && (negb guarded || unset_or_empty (environ st1) var)); simpl;
        [by rewrite lookup_insert_eq, H1|done].
    + intros H1. rewrite (unset_or_empty_ext _ _ var H1), Hc. done.
Qed.

(** X26.  On the variables of the process [SetEnv] is idempotent: a second
    run, with the same resources, leaves every variable as the first run
    left it. *)
Theorem SetEnv_twice Atoi home gEnv st :
  environ (SetEnv Atoi home gEnv (SetEnv Atoi home gEnv st))
  = environ (SetEnv Atoi home gEnv st).
Proof.
  apply map_eq. intros var.
  destruct (decide (Some var ∈ row_target <$> SetEnv_rows)) as [Hin|Hnot].
  - apply list_elem_of_fmap in Hin as (row & Ht & Hin). symmetry in Ht.
    unfold SetEnv at 1.
    rewrite (run_rows_target Atoi home gEnv SetEnv_rows
               SetEnv_rows_targets_NoDup _ row var Hin Ht).
    apply (apply_row_again Atoi home gEnv st); [exact Ht|].
    exact (run_rows_target Atoi home gEnv SetEnv_rows
             SetEnv_rows_targets_NoDup st row var Hin Ht).
  - unfold SetEnv at 1. by rewrite run_rows_frame.
Qed.

(** A run: the worker threads come from the resources, the stream error
    window is left to the process, and the CRL check gets its default. *)
Example SetEnv_run :
  let gEnv : gmap string string :=
    {[ "NetXNG.WorkerThreads"%string := "4"%string;
       "NetXNG.StreamErrorWindow"%string := "30"%string ]} in
  let env : gmap string string :=
    {[ "XRD_STREAMERRORWINDOW"%string := "60"%string;
       "XrdSecGSISIGNPROXY"%string := "0"%string ]} in
  let st := SetEnv (fun _ => 4) "/home/user" gEnv (mkEnv env []) in
  xrd_puts st = [PutInt "WorkerThreads" 4]
  /\ environ st !! "XrdSecGSICRLCHECK"%string = Some "1"%string
  /\ environ st !! "XrdSecGSISIGNPROXY"%string = Some "0"%string
  /\ environ st !! "XrdSecNETRC"%string = Some "/home/user/.rootnetrc"%string
  /\ environ st !! "XrdSecGSICADIR"%string = None.
Proof. vm_compute. by repeat split. Qed.

(** ** GetSize *)

Lemma to_Long64_t_id z : 0 <= z < 2 ^ 63 -> to_Long64_t z = z.
Proof. intros H. unfold to_Long64_t. rewrite Z.mod_small; lia. Qed.

(** X27.  On a usable file [GetSize] asks the session for one [Stat], a
    fresh one unless the file is in Read mode, and returns the size it
    answers; on a file that is not usable it asks for nothing.  With sizes
    below 2^63 the result is -1 exactly when the file is not usable or the
    [Stat] fails. *)
Theorem GetSize_result r f :
  (forall force size, Stat r force = Some size -> 0 <= size < 2 ^ 63) ->
  (GetSize r f).2
  = (if IsUseable f then Some (negb (bool_decide (fMode f = OF_Read)))
     else None)
  /\ ((GetSize r f).1 = -1
      <-> IsUseable f = false
          \/ Stat r (negb (bool_decide (fMode f = OF_Read))) = None)
  /\ (forall size,
        IsUseable f = true ->
        Stat r (negb (bool_decide (fMode f = OF_Read))) = Some size ->
        (GetSize r f).1 = size).
Proof.
  intros Hsize. unfold GetSize. destruct (IsUseable f); cbn [negb].
  - destruct (Stat r _) as [size|] eqn:Hs; simpl.
    + pose proof (Hsize _ _ Hs) as Hrange.
      rewrite (to_Long64_t_id size Hrange).
      split; [done|]. split; [|by intros ? _ [= <-]].
      split; [lia|by intros [|]].
    + split; [done|]. split; [|done]. split; [by right|done].
  - simpl. split; [done|]. split; [|done]. split; [by left|done].
Qed.

Lemma GetSize_result_witness :
  (forall force size, Stat short_remote force = Some size -> 0 <= size < 2 ^ 63)
  /\ GetSize short_remote (set_session small_file true OF_Update)
     = (100, Some true)
  /\ (GetSize short_remote (set_session small_file true OF_Update)).2
     = (if IsUseable (set_session small_file true OF_Update)
        then Some (negb (bool_decide
                           (fMode (set_session small_file true OF_Update)
                            = OF_Read)))
        else None).
Proof.
  assert (Hsize : forall force size,
            Stat short_remote force = Some size -> 0 <= size < 2 ^ 63).
  { intros force size [= <-]. lia. }
  split; [exact Hsize|]. split; [reflexivity|].
  exact (proj1 (GetSize_result short_remote
                  (set_session small_file true OF_Update) Hsize)).
Defined.

(** ** An asynchronous open that is rejected *)

(** X28.  When the session rejects an asynchronous open at once, the
    constructor leaves a zombie whose open status is still in progress and
    whose session is not open; on such an object, if [Init] was not done,
    [Init] takes the branch that waits on the condition variable. *)
Theorem rejected_async_open_in_progress base s r f0 mode :
  IsOK (OpenAsync r (ParseOpenMode mode)) = false ->
  fInitDone f0 = false ->
  fZombie (TNetXNGFile_new base s r f0 mode true) = true
  /\ fAsyncOpenStatus (TNetXNGFile_new base s r f0 mode true) = kAOSInProgress
  /\ IsOpen (TNetXNGFile_new base s r f0 mode true) = false
  /\ Init_waits (TNetXNGFile_new base s r f0 mode true) = Some true.
Proof.
  intros Hfail Hinit. unfold TNetXNGFile_new. simpl. rewrite Hfail. simpl.
  unfold Init_waits. simpl. by rewrite Hinit.
Qed.

Lemma rejected_async_open_in_progress_witness :
  IsOK (OpenAsync short_remote (ParseOpenMode "READ")) = false
  /\ fInitDone (set_limits (mkFile false false OF_None kAOSNotAsync 0 false
                                   0 0 0 0 0 0) 0 0) = false
  /\ Init_waits
       (TNetXNGFile_new plain_base good_session short_remote
          (set_limits (mkFile false false OF_None kAOSNotAsync 0 false
                              0 0 0 0 0 0) 0 0) "READ" true)
     = Some true.
Proof.
  assert (Hfail : IsOK (OpenAsync short_remote (ParseOpenMode "READ")) = false)
    by reflexivity.
  assert (Hinit :
    fInitDone (set_limits (mkFile false false OF_None kAOSNotAsync 0 false
                                  0 0 0 0 0 0) 0 0) = false) by reflexivity.
  split; [exact Hfail|]. split; [exact Hinit|].
  exact (proj2 (proj2 (proj2
           (rejected_async_open_in_progress plain_base good_session
              short_remote _ "READ" Hfail Hinit)))).
Defined.
